(** * Finisher: the post-send completion engine of [core/view/finisher.go]

    A shallow embedding of the [Finisher] type of package [view] and of its
    methods ([Call], [invoke], [protectFromPanic], [trFinish],
    [TrSessionError], [TrChatError], [MakeFinisher], [MakeSuccess],
    [MakeError]) together with the process-wide completors installed by
    [InitCompletors].

    The Go code calls into code it does not own: the callbacks, reached
    through untyped pointers, and the two transaction completors.  Their
    effects are threaded through an abstract [World]; what they were called
    with, and how each call ended, is kept in a ghost trace of [Event]s so
    that statements about "which function was invoked with what" can be
    written down. *)

From Stdlib Require Import NArith List String Bool.
Import ListNotations.
Open Scope string_scope.
Open Scope list_scope.
Open Scope N_scope.

(** ** Go values *)

(** [unsafe.Pointer]: an address, [0] being [nil]. *)
Definition Pointer := N.
Definition nil_ptr : Pointer := 0.

(** A Go interface value ([interface{}]): [None] is [nil], [Some d] a
    non-nil dynamic value, identified here by a string. *)
Definition any := option string.

(** The [error] interface: [None] is the [nil] error. *)
Definition error := option string.

(** How a call into Go code ends: it returns a value of type [A], or it
    panics with the value given to [panic].  That value is an [interface{}]
    and may be [nil] ([panic(nil)]); [recover] then reports [nil] although a
    panic is in progress, which is the behaviour of the Go releases this code
    was written for (and of later ones for modules that declare go 1.20 or
    earlier). *)
Inductive Outcome (A : Type) : Type :=
| Returns (a : A)
| Panics (v : any).
Arguments Returns {A} a.
Arguments Panics {A} v.

(** ** Behaviour flags *)

Module Flag.

(** Modelled from the spec: the type [finisherFlag], its constants and its
    methods [TestFlag] and [SetFlag] are declared in a file of package
    [view] that is not among the sources.  The spec calls the flags "a set
    of independent boolean options, combinable": a bit mask, one bit per
    option. *)
Definition finisherFlag := N.

(** Modelled from the spec: [PanicGuard], "contain crashes raised by
    callbacks instead of propagating them". *)
Definition CEnablePanicGuard : finisherFlag := 1.

(** Modelled from the spec: [RunCleanupStageA], "request stage-1 cleanup
    after callbacks run". *)
Definition CFinishSessionTransaction : finisherFlag := 2.

(** Modelled from the spec: [RunCleanupStageB], "request stage-2 cleanup
    after callbacks run". *)
Definition CFinishChatTransaction : finisherFlag := 4.

(** Modelled from the spec: [StageAFailed], set by the engine to record that
    the recorded cleanup error is that of stage 1. *)
Definition CIsSessionTransactionError : finisherFlag := 8.

(** Modelled from the spec: [StageBFailed], set by the engine to record that
    the recorded cleanup error is that of stage 2. *)
Definition CIsChatTransactionError : finisherFlag := 16.

(** Modelled from the spec: whether the option [flag] is among [f]. *)
Definition TestFlag (f flag : finisherFlag) : bool :=
  negb (N.land f flag =? 0).

(** Modelled from the spec: [f] with the option [flag] added. *)
Definition SetFlag (f flag : finisherFlag) : finisherFlag :=
  N.lor f flag.

End Flag.
Export Flag.

(** ** The Finisher object *)

Record Finisher : Type := mkFinisher {
  Flags : finisherFlag;
  originalCtx : Pointer;
  passCallbacksCtx : Pointer;
  sentMsg : Pointer;
  sentErr : error;
  callbacks : list Pointer;
  RecoveredPanics : list any;
  Err : error
}.

Definition set_Flags (f : Finisher) (x : finisherFlag) : Finisher :=
  mkFinisher x (originalCtx f) (passCallbacksCtx f) (sentMsg f) (sentErr f)
             (callbacks f) (RecoveredPanics f) (Err f).

Definition set_RecoveredPanics (f : Finisher) (x : list any) : Finisher :=
  mkFinisher (Flags f) (originalCtx f) (passCallbacksCtx f) (sentMsg f)
             (sentErr f) (callbacks f) x (Err f).

Definition set_Err (f : Finisher) (x : error) : Finisher :=
  mkFinisher (Flags f) (originalCtx f) (passCallbacksCtx f) (sentMsg f)
             (sentErr f) (callbacks f) (RecoveredPanics f) x.

(** [MakeFinisher]: the composite literal names three fields only; every
    other field, [callbacks] included, keeps its zero value.  The parameter
    [cbs] is not used. *)
Definition MakeFinisher (flags : finisherFlag) (cbs : list Pointer)
           (originalCtx pass2callbacksCtx : Pointer) : Finisher :=
  {| Flags := flags;
     originalCtx := originalCtx;
     passCallbacksCtx := pass2callbacksCtx;
     sentMsg := nil_ptr;
     sentErr := None;
     callbacks := [];
     RecoveredPanics := [];
     Err := None |}.

(** [f.sentMsg, f.sentErr = sentMsg, nil] *)
Definition MakeSuccess (f : Finisher) (msg : Pointer) : Finisher :=
  mkFinisher (Flags f) (originalCtx f) (passCallbacksCtx f) msg None
             (callbacks f) (RecoveredPanics f) (Err f).

(** [f.sentMsg, f.sentErr = nil, err] *)
Definition MakeError (f : Finisher) (err : error) : Finisher :=
  mkFinisher (Flags f) (originalCtx f) (passCallbacksCtx f) nil_ptr err
             (callbacks f) (RecoveredPanics f) (Err f).

Definition TrSessionError (f : Finisher) : error :=
  if TestFlag (Flags f) CIsSessionTransactionError
     && match Err f with Some _ => true | None => false end
  then Err f else None.

Definition TrChatError (f : Finisher) : error :=
  if TestFlag (Flags f) CIsChatTransactionError
     && match Err f with Some _ => true | None => false end
  then Err f else None.

(** [protectFromPanic], given what [recover()] reported. *)
Definition protectFromPanic (recoverInfo : any) (f : Finisher) : Finisher :=
  match recoverInfo with
  | Some _ => set_RecoveredPanics f (RecoveredPanics f ++ [recoverInfo])
  | None => f
  end.

(** How many of the two outcome fields are populated. *)
Definition populated (f : Finisher) : nat :=
  ((if sentMsg f =? nil_ptr then 0 else 1)
   + (match sentErr f with Some _ => 1 | None => 0 end))%nat.

(** ** Ghost trace *)

Inductive Event : Type :=
  | EvCallbackMsg (cb ctx msg : Pointer) (r : Outcome unit)
  | EvCallbackErr (cb ctx : Pointer) (err : error) (r : Outcome unit)
  | EvSessionTransaction (ctx : Pointer) (r : Outcome error)
  | EvChatTransaction (ctx : Pointer) (r : Outcome error).

(** The callback an event is a call of, if it is one. *)
Definition cbTarget (ev : Event) : option Pointer :=
  match ev with
  | EvCallbackMsg cb _ _ _ | EvCallbackErr cb _ _ _ => Some cb
  | _ => None
  end.

Definition isCallback (ev : Event) : bool :=
  match cbTarget ev with Some _ => true | None => false end.

Definition isSession (ev : Event) : bool :=
  match ev with EvSessionTransaction _ _ => true | _ => false end.

Definition isChat (ev : Event) : bool :=
  match ev with EvChatTransaction _ _ => true | _ => false end.

(** The context reference an event's callee received. *)
Definition eventCtx (ev : Event) : Pointer :=
  match ev with
  | EvCallbackMsg _ ctx _ _ | EvCallbackErr _ ctx _ _
  | EvSessionTransaction ctx _ | EvChatTransaction ctx _ => ctx
  end.

(** The values with which the callbacks of a trace panicked, in order. *)
Fixpoint panicValues (tr : list Event) : list any :=
  match tr with
  | [] => []
  | (EvCallbackMsg _ _ _ (Panics v) | EvCallbackErr _ _ _ (Panics v)) :: tr' =>
      v :: panicValues tr'
  | _ :: tr' => panicValues tr'
  end.

Definition nonNil (v : any) : bool :=
  match v with Some _ => true | None => false end.

(** Text of the run-time error of a call through a nil func value. *)
Definition nilFuncCall : string :=
  "runtime error: invalid memory address or nil pointer dereference".

Section Engine.

(** State of everything outside the [Finisher]: what callbacks and
    completors read and write.  The [Finisher] itself is not reachable from
    it: the callbacks get the context and the message or the error, the
    completors the context, and none of them gets [f]. *)
Context {World : Type}.

(** [callMsg cb ctx msg]: [cb] cast to a pointer to a
    [func(unsafe.Pointer, unsafe.Pointer)], dereferenced and called with
    [(ctx, msg)]; [callErr cb ctx err]: [cb] cast to a pointer to a
    [func(unsafe.Pointer, error)], dereferenced and called with
    [(ctx, err)].  A [cb] that is nil or points to something else ends as
    the Go run time makes it end, in a panic or otherwise.  Every call is
    taken to end, by a return or by a panic. *)
Variable callMsg : Pointer -> Pointer -> Pointer -> World -> World * Outcome unit.
Variable callErr : Pointer -> Pointer -> error -> World -> World * Outcome unit.

Definition Completor : Type := Pointer -> World -> World * Outcome error.

(** The package-level variables; a func variable is nil until assigned. *)
Record Completors : Type := {
  fCompletorSessionTransaction : option Completor;
  fCompletorChatTransaction : option Completor
}.

Definition noCompletors : Completors :=
  {| fCompletorSessionTransaction := None;
     fCompletorChatTransaction := None |}.

Definition InitCompletors (cSessTr cChatTr : option Completor) : Completors :=
  {| fCompletorSessionTransaction := cSessTr;
     fCompletorChatTransaction := cChatTr |}.

(** The completors in force during the run. *)
Variable G : Completors.

Record Machine : Type := mkMachine {
  fin : Finisher;
  world : World;
  trace : list Event
}.

Definition start (f : Finisher) (w : World) : Machine := mkMachine f w [].

Definition withFin (s : Machine) (f : Finisher) : Machine :=
  mkMachine f (world s) (trace s).

(** The state after a call that left the world as [w] and is logged as [ev]. *)
Definition called (s : Machine) (w : World) (ev : Event) : Machine :=
  mkMachine (fin s) w (trace s ++ [ev]).

(** A method of [*Finisher] either returns or leaves by a panic; the
    object keeps what was written to it in both cases. *)
Inductive Result : Type :=
| Done (s : Machine)
| Panic (v : any) (s : Machine).

Definition final (r : Result) : Machine :=
  match r with Done s | Panic _ s => s end.

Definition bind (r : Result) (k : Machine -> Result) : Result :=
  match r with
  | Done s => k s
  | Panic v s => Panic v s
  end.

(** The [switch] of [invoke]. *)
Definition dispatch (cb : Pointer) (s : Machine) : Machine * Outcome unit :=
  let f := fin s in
  if negb (sentMsg f =? nil_ptr) then
    let (w, r) := callMsg cb (passCallbacksCtx f) (sentMsg f) (world s) in
    (called s w (EvCallbackMsg cb (passCallbacksCtx f) (sentMsg f) r), r)
  else
    match sentErr f with
    | Some _ =>
        let (w, r) := callErr cb (passCallbacksCtx f) (sentErr f) (world s) in
        (called s w (EvCallbackErr cb (passCallbacksCtx f) (sentErr f) r), r)
    | None => (s, Returns tt)
    end.

(** What [recover()] reports in a function deferred by a frame that ended
    as [r]: the value of the panic in progress, nil when there is none.  A
    [panic(nil)] is reported as nil under the panic semantics of Go before
    1.21, which later toolchains keep for modules that declare go 1.20 or
    earlier; from go 1.21 on the run time replaces the nil value by a
    run-time error, and no call ends as [Panics None]. *)
Definition recover (r : Outcome unit) : any :=
  match r with
  | Panics v => v
  | Returns _ => None
  end.

(** [invoke]: the flag is read on entry; a deferred [protectFromPanic]
    runs when the switch is left, by return or by panic, and its call of
    [recover] stops the panic. *)
Definition invoke (cb : Pointer) (s : Machine) : Result :=
  let guarded := TestFlag (Flags (fin s)) CEnablePanicGuard in
  let (s1, r) := dispatch cb s in
  if guarded then Done (withFin s1 (protectFromPanic (recover r) (fin s1)))
  else
    match r with
    | Returns _ => Done s1
    | Panics v => Panic v s1
    end.

(** [for _, cb := range f.callbacks { f.invoke(cb) }] *)
Fixpoint rangeCallbacks (cbs : list Pointer) (s : Machine) : Result :=
  match cbs with
  | [] => Done s
  | cb :: rest => bind (invoke cb s) (rangeCallbacks rest)
  end.

(** A call through a package-level func variable. *)
Definition callCompletor (c : option Completor)
           (ev : Pointer -> Outcome error -> Event)
           (ctx : Pointer) (s : Machine) : Machine * Outcome error :=
  match c with
  | None => (s, Panics (Some nilFuncCall))
  | Some g =>
      let (w, r) := g ctx (world s) in (called s w (ev ctx r), r)
  end.

(** The second half of [trFinish]. *)
Definition trFinishChat (s : Machine) : Result :=
  if TestFlag (Flags (fin s)) CFinishChatTransaction then
    let (s1, r) := callCompletor (fCompletorChatTransaction G)
                                 EvChatTransaction (originalCtx (fin s)) s in
    match r with
    | Panics v => Panic v s1
    | Returns None => Done s1
    | Returns (Some e) =>
        let f1 := set_Err (fin s1) (Some e) in
        Done (withFin s1 (set_Flags f1 (SetFlag (Flags f1) CIsChatTransactionError)))
    end
  else Done s.

Definition trFinish (s : Machine) : Result :=
  if TestFlag (Flags (fin s)) CFinishSessionTransaction then
    let (s1, r) := callCompletor (fCompletorSessionTransaction G)
                                 EvSessionTransaction (originalCtx (fin s)) s in
    match r with
    | Panics v => Panic v s1
    | Returns None => trFinishChat s1
    | Returns (Some e) =>
        let f1 := set_Err (fin s1) (Some e) in
        Done (withFin s1 (set_Flags f1 (SetFlag (Flags f1) CIsSessionTransactionError)))
    end
  else trFinishChat s.

Definition Call (s : Machine) : Result :=
  bind (rangeCallbacks (callbacks (fin s)) s) trFinish.

End Engine.

Arguments Done {World} s.
Arguments Panic {World} v s.

(** ** What a run is expected to log *)

(** [ev] is a call of callback [cb] as [invoke] makes it for [f]: with the
    context kept for the callbacks and, by the first populated outcome field,
    the message or the error. *)
Definition callbackEventOf (f : Finisher) (cb : Pointer) (ev : Event) : Prop :=
  (sentMsg f <> nil_ptr /\
   exists r, ev = EvCallbackMsg cb (passCallbacksCtx f) (sentMsg f) r)
  \/
  (sentMsg f = nil_ptr /\ sentErr f <> None /\
   exists r, ev = EvCallbackErr cb (passCallbacksCtx f) (sentErr f) r).

(** The events a transaction stage may log: calls of a completor with the
    original context. *)
Definition cleanupEventOf (f : Finisher) (ev : Event) : Prop :=
  isCallback ev = false /\ eventCtx ev = originalCtx f.

(** Neither outcome field is populated. *)
Definition unmarked (f : Finisher) : Prop :=
  sentMsg f = nil_ptr /\ sentErr f = None.

(** What a run may not touch: the outcome, both contexts, the callbacks. *)
Definition sameWiring (f f' : Finisher) : Prop :=
  sentMsg f' = sentMsg f /\ sentErr f' = sentErr f /\
  originalCtx f' = originalCtx f /\ passCallbacksCtx f' = passCallbacksCtx f /\
  callbacks f' = callbacks f.

(** The two assignments of a failing stage of [trFinish]: [f.Err = err],
    then [f.Flags.SetFlag(flag)]. *)
Definition recordFailure (f : Finisher) (e : string) (flag : finisherFlag)
  : Finisher :=
  set_Flags (set_Err f (Some e)) (SetFlag (Flags (set_Err f (Some e))) flag).

(** The completor calls one run of [trFinish] can make with the original
    context [o]: none, the session completor alone, the chat completor alone,
    or the session completor that returns no error and then the chat
    completor. *)
Definition cleanupLog (o : Pointer) (tr : list Event) : Prop :=
  tr = [] \/
  (exists r, tr = [EvSessionTransaction o r]) \/
  (exists r, tr = [EvChatTransaction o r]) \/
  (exists r, tr = [EvSessionTransaction o (Returns None);
                   EvChatTransaction o r]).

(** ** A small concrete system

    Three callbacks told apart by their address: the one at [102] panics with
    ["boom"], the one at [103] with a nil value, any other returns.  The world
    counts the calls made so far. *)
Module Demo.

Definition World := N.

Definition behave (cb : Pointer) : Outcome unit :=
  if cb =? 102 then Panics (Some "boom")
  else if cb =? 103 then Panics None
  else Returns tt.

Definition callMsg (cb ctx msg : Pointer) (w : World) : World * Outcome unit :=
  (w + 1, behave cb).

Definition callErr (cb ctx : Pointer) (err : error) (w : World)
  : World * Outcome unit :=
  (w + 1, behave cb).

Definition succeeds : @Completor World := fun _ w => (w + 1, Returns None).

Definition fails (e : string) : @Completor World :=
  fun _ w => (w + 1, Returns (Some e)).

(** Three callbacks, the second of which panics; the panic guard and the
    session transaction are requested. *)
Definition threeCallbacks : Finisher :=
  mkFinisher (N.lor CEnablePanicGuard CFinishSessionTransaction)
             10 20 7 None [101; 102; 104] [] None.

(** The same without the panic guard. *)
Definition unguarded : Finisher :=
  mkFinisher CFinishSessionTransaction 10 20 7 None [101; 102; 104] [] None.

(** One callback that panics with a nil value, under the panic guard. *)
Definition nilPanic : Finisher :=
  mkFinisher CEnablePanicGuard 10 20 7 None [103] [] None.

(** No callback; both transactions are requested. *)
Definition bothStages : Finisher :=
  MakeFinisher (N.lor CFinishSessionTransaction CFinishChatTransaction) [] 10 20.

(** Two callbacks and no outcome; both transactions are requested. *)
Definition noOutcome : Finisher :=
  mkFinisher (N.lor CFinishSessionTransaction CFinishChatTransaction)
             10 20 nil_ptr None [101; 102] [] None.

(** Constructed with [CIsChatTransactionError] among the flags. *)
Definition staleChatFlag : Finisher :=
  MakeFinisher (N.lor CFinishSessionTransaction CIsChatTransactionError) [] 10 20.

(** Constructed with [CIsSessionTransactionError] among the flags. *)
Definition staleSessionFlag : Finisher :=
  MakeFinisher (N.lor CFinishChatTransaction CIsSessionTransactionError) [] 10 20.

(** The session completor fails with ["E1"]. *)
Definition sessionFails : @Completors World :=
  InitCompletors (Some (fails "E1")) (Some succeeds).

(** The chat completor fails with ["E2"]. *)
Definition chatFails : @Completors World :=
  InitCompletors (Some succeeds) (Some (fails "E2")).

Definition bothSucceed : @Completors World :=
  InitCompletors (Some succeeds) (Some succeeds).

Definition run (G : @Completors World) (f : Finisher) : @Result World :=
  Call callMsg callErr G (start f 0).

(** A completor that panics with ["down"]. *)
Definition crashes : @Completor World :=
  fun _ w => (w + 1, Panics (Some "down")).

(** The session completor panics. *)
Definition sessionCrashes : @Completors World :=
  InitCompletors (Some crashes) (Some succeeds).

(** Both outcome fields populated, as a composite literal inside the package
    can make them; the panic guard is set. *)
Definition bothOutcomes : Finisher :=
  mkFinisher CEnablePanicGuard 10 20 7 (Some "late") [101; 104] [] None.

(** No callback; the chat transaction alone is requested. *)
Definition chatOnly : Finisher :=
  MakeFinisher CFinishChatTransaction [] 10 20.

(** No callback; the session transaction alone is requested. *)
Definition sessionOnly : Finisher :=
  MakeFinisher CFinishSessionTransaction [] 10 20.

(** Three callbacks that all return, no panic guard, both transactions. *)
Definition quiet : Finisher :=
  mkFinisher (N.lor CFinishSessionTransaction CFinishChatTransaction)
             10 20 7 None [101; 104; 105] [] None.

End Demo.

(** ** Flags *)

Lemma TestFlag_SetFlag_same (f c : finisherFlag) :
  c <> 0 -> TestFlag (SetFlag f c) c = true.
Proof.
  intros Hc. unfold TestFlag, SetFlag.
  rewrite N.land_lor_distr_l, N.land_diag.
  destruct (N.eqb_spec (N.lor (N.land f c) c) 0) as [E|E]; [|reflexivity].
  apply N.lor_eq_0_iff in E. tauto.
Qed.

Lemma TestFlag_SetFlag_other (f c d : finisherFlag) :
  N.land c d = 0 -> TestFlag (SetFlag f c) d = TestFlag f d.
Proof.
  intros Hcd. unfold TestFlag, SetFlag.
  now rewrite N.land_lor_distr_l, Hcd, N.lor_0_r.
Qed.

(** ** Record housekeeping *)

Lemma set_RecoveredPanics_id (f : Finisher) :
  set_RecoveredPanics f (RecoveredPanics f) = f.
Proof. now destruct f. Qed.

Lemma sameWiring_trans (f g h : Finisher) :
  sameWiring f g -> sameWiring g h -> sameWiring f h.
Proof. unfold sameWiring. intuition congruence. Qed.

Lemma panicValues_app (tr1 tr2 : list Event) :
  panicValues (tr1 ++ tr2) = panicValues tr1 ++ panicValues tr2.
Proof.
  induction tr1 as [|ev tr1 IH]; [reflexivity|].
  destruct ev as [? ? ? [|]|? ? ? [|]| |]; simpl; now rewrite ?IH.
Qed.

Lemma unmarked_dec (f : Finisher) : {unmarked f} + {~ unmarked f}.
Proof.
  unfold unmarked.
  destruct (N.eq_dec (sentMsg f) nil_ptr) as [E|E]; [|right; tauto].
  destruct (sentErr f); [right|left; tauto].
  intros [_ H]; discriminate.
Qed.

Lemma filter_isCallback_cleanup (f : Finisher) (tr : list Event) :
  Forall (cleanupEventOf f) tr -> filter isCallback tr = [].
Proof.
  induction 1 as [|ev tr [Hc _] _ IH]; [reflexivity|].
  simpl. now rewrite Hc.
Qed.

Lemma filter_isCallback_callbacks (f : Finisher) (tr : list Event) :
  Forall (fun ev => exists cb, callbackEventOf f cb ev) tr ->
  filter isCallback tr = tr.
Proof.
  induction 1 as [|ev tr (cb & H) _ IH]; [reflexivity|].
  simpl. rewrite IH.
  now destruct H as [(_ & r & ->)|(_ & _ & r & ->)].
Qed.

Lemma Forall2_callbackEventOf_Forall (f : Finisher) (cbs : list Pointer)
      (tr : list Event) :
  Forall2 (callbackEventOf f) cbs tr ->
  Forall (fun ev => exists cb, callbackEventOf f cb ev) tr.
Proof. induction 1; constructor; eauto. Qed.

Lemma no_cleanup_among_callbacks (f : Finisher) (tr : list Event) :
  Forall (fun ev => exists cb, callbackEventOf f cb ev) tr ->
  filter isSession tr = [] /\ filter isChat tr = [].
Proof.
  induction 1 as [|ev tr (cb & H) _ [IH1 IH2]]; [now split|].
  simpl. rewrite IH1, IH2.
  now destruct H as [(_ & r & ->)|(_ & _ & r & ->)].
Qed.

Lemma TestFlag_SetFlag_mono (f c d : finisherFlag) :
  TestFlag f d = true -> TestFlag (SetFlag f c) d = true.
Proof.
  unfold TestFlag, SetFlag. rewrite N.land_lor_distr_l.
  destruct (N.eqb_spec (N.land f d) 0) as [E|E]; [discriminate|]. intros _.
  destruct (N.eqb_spec (N.lor (N.land f d) (N.land c d)) 0) as [E'|E'];
    [|reflexivity].
  apply N.lor_eq_0_iff in E'. tauto.
Qed.

Lemma panicValues_cleanup (f : Finisher) (tr : list Event) :
  Forall (cleanupEventOf f) tr -> panicValues tr = [].
Proof.
  induction 1 as [|ev tr [Hc _] _ IH]; [reflexivity|].
  destruct ev as [? ? ? ?|? ? ? ?| |]; try discriminate; exact IH.
Qed.

Lemma callbackEventOf_sameWiring (f f' : Finisher) :
  sameWiring f f' -> callbackEventOf f' = callbackEventOf f.
Proof.
  intros (Hm & He & _ & Hp & _). unfold callbackEventOf.
  now rewrite Hm, He, Hp.
Qed.

Lemma cleanupLog_cleanupEventOf (f : Finisher) (tr : list Event) :
  cleanupLog (originalCtx f) tr -> Forall (cleanupEventOf f) tr.
Proof.
  intros [->|[[r ->]|[[r ->]|[r ->]]]];
    repeat constructor.
Qed.

Section Properties.

Context {World : Type}.
Variable callMsg : Pointer -> Pointer -> Pointer -> World -> World * Outcome unit.
Variable callErr : Pointer -> Pointer -> error -> World -> World * Outcome unit.
Variable G : @Completors World.

Local Abbreviation Machine := (@Machine World).
Local Abbreviation dispatch := (dispatch callMsg callErr).
Local Abbreviation invoke := (invoke callMsg callErr).
Local Abbreviation rangeCallbacks := (rangeCallbacks callMsg callErr).
Local Abbreviation trFinish := (trFinish G).
Local Abbreviation trFinishChat := (trFinishChat G).
Local Abbreviation Call := (Call callMsg callErr G).

Lemma withFin_fin (s : Machine) : withFin s (fin s) = s.
Proof. now destruct s. Qed.

(** *** The switch *)

Lemma dispatch_unmarked (cb : Pointer) (s : Machine) :
  unmarked (fin s) -> dispatch cb s = (s, Returns tt).
Proof.
  intros [Hm He]. unfold dispatch. rewrite Hm, He. reflexivity.
Qed.

Lemma dispatch_marked (cb : Pointer) (s : Machine) :
  ~ unmarked (fin s) ->
  exists w r ev,
    dispatch cb s = (called s w ev, r) /\
    callbackEventOf (fin s) cb ev /\
    panicValues [ev] = match r with Panics v => [v] | Returns _ => [] end.
Proof.
  intros Hn. unfold dispatch, callbackEventOf.
  destruct (N.eqb_spec (sentMsg (fin s)) nil_ptr) as [E|E]; simpl.
  - destruct (sentErr (fin s)) as [e|] eqn:He.
    + destruct (callErr cb (passCallbacksCtx (fin s)) (Some e) (world s))
        as [w r] eqn:Hc.
      exists w, r, (EvCallbackErr cb (passCallbacksCtx (fin s)) (Some e) r).
      split; [reflexivity|split].
      * right. repeat split; [assumption|discriminate|eauto].
      * now destruct r.
    + exfalso. apply Hn. now split.
  - destruct (callMsg cb (passCallbacksCtx (fin s)) (sentMsg (fin s)) (world s))
      as [w r] eqn:Hc.
    exists w, r, (EvCallbackMsg cb (passCallbacksCtx (fin s)) (sentMsg (fin s)) r).
    split; [reflexivity|split].
    + left. split; [assumption|eauto].
    + now destruct r.
Qed.

(** *** One callback *)

Lemma protectFromPanic_filter (v : any) (f : Finisher) :
  protectFromPanic v f
  = set_RecoveredPanics f (RecoveredPanics f ++ filter nonNil [v]).
Proof.
  destruct v as [d|]; simpl; [reflexivity|].
  now rewrite app_nil_r, set_RecoveredPanics_id.
Qed.

Lemma invoke_unmarked (cb : Pointer) (s : Machine) :
  unmarked (fin s) -> invoke cb s = Done s.
Proof.
  intros U. unfold invoke. rewrite (dispatch_unmarked cb s U).
  destruct (TestFlag (Flags (fin s)) CEnablePanicGuard); [|reflexivity].
  simpl. now rewrite withFin_fin.
Qed.

Lemma invoke_guarded (cb : Pointer) (s : Machine) :
  TestFlag (Flags (fin s)) CEnablePanicGuard = true ->
  ~ unmarked (fin s) ->
  exists s1 ev,
    invoke cb s = Done s1 /\
    trace s1 = trace s ++ [ev] /\
    callbackEventOf (fin s) cb ev /\
    fin s1 = set_RecoveredPanics (fin s)
               (RecoveredPanics (fin s) ++ filter nonNil (panicValues [ev])).
Proof.
  intros Hg U. unfold invoke. rewrite Hg.
  destruct (dispatch_marked cb s U) as (w & r & ev & -> & Hev & Hpv).
  eexists _, ev. split; [reflexivity|].
  split; [reflexivity|]. split; [assumption|].
  cbn [fin withFin called].
  rewrite protectFromPanic_filter, Hpv. now destruct r.
Qed.

Lemma invoke_unguarded (cb : Pointer) (s : Machine) :
  TestFlag (Flags (fin s)) CEnablePanicGuard = false ->
  invoke cb s =
    match snd (dispatch cb s) with
    | Returns _ => Done (fst (dispatch cb s))
    | Panics v => Panic v (fst (dispatch cb s))
    end.
Proof.
  intros Hg. unfold invoke. rewrite Hg.
  now destruct (dispatch cb s) as [s1 [u|v]].
Qed.

(** *** The loop over the callbacks *)

Lemma rangeCallbacks_app (pre post : list Pointer) (s : Machine) :
  rangeCallbacks (pre ++ post) s
  = bind (rangeCallbacks pre s) (rangeCallbacks post).
Proof.
  revert s. induction pre as [|cb pre IH]; intros s; [reflexivity|].
  simpl. destruct (invoke cb s) as [s1|v s1]; simpl; [apply IH|reflexivity].
Qed.

Lemma rangeCallbacks_unmarked (cbs : list Pointer) (s : Machine) :
  unmarked (fin s) -> rangeCallbacks cbs s = Done s.
Proof.
  intros U. induction cbs as [|cb cbs IH]; [reflexivity|].
  simpl. now rewrite (invoke_unmarked cb s U).
Qed.

Lemma rangeCallbacks_guarded (cbs : list Pointer) :
  forall s : Machine,
    TestFlag (Flags (fin s)) CEnablePanicGuard = true ->
    ~ unmarked (fin s) ->
    exists s' tr,
      rangeCallbacks cbs s = Done s' /\
      trace s' = trace s ++ tr /\
      Forall2 (callbackEventOf (fin s)) cbs tr /\
      fin s' = set_RecoveredPanics (fin s)
                 (RecoveredPanics (fin s) ++ filter nonNil (panicValues tr)).
Proof.
  induction cbs as [|cb cbs IH]; intros s Hg U.
  - exists s, []. simpl. rewrite !app_nil_r, set_RecoveredPanics_id.
    repeat split. constructor.
  - destruct (invoke_guarded cb s Hg U) as (s1 & ev & Hi & Ht & Hev & Hf).
    destruct (IH s1) as (s' & tr & Hr & Ht' & Hall & Hf').
    + now rewrite Hf.
    + now rewrite Hf.
    + exists s', (ev :: tr).
      split; [simpl; now rewrite Hi|]. split; [|split].
      * rewrite Ht', Ht, <- app_assoc. reflexivity.
      * constructor; [assumption|]. now rewrite Hf in Hall.
      * rewrite Hf', Hf. cbn [RecoveredPanics set_RecoveredPanics].
        change (ev :: tr) with ([ev] ++ tr).
        rewrite panicValues_app, filter_app, <- app_assoc. reflexivity.
Qed.

Lemma rangeCallbacks_unguarded (cbs : list Pointer) :
  forall (s s' : Machine),
    TestFlag (Flags (fin s)) CEnablePanicGuard = false ->
    ~ unmarked (fin s) ->
    rangeCallbacks cbs s = Done s' ->
    fin s' = fin s /\
    exists tr, trace s' = trace s ++ tr /\
               Forall2 (callbackEventOf (fin s)) cbs tr /\
               panicValues tr = [].
Proof.
  induction cbs as [|cb cbs IH]; intros s s' Hg U Hr.
  - injection Hr as <-. split; [reflexivity|].
    exists []. rewrite app_nil_r. repeat split. constructor.
  - simpl in Hr. rewrite (invoke_unguarded cb s Hg) in Hr.
    destruct (dispatch_marked cb s U) as (w & r & ev & Hd & Hev & Hpv).
    rewrite Hd in Hr. simpl in Hr.
    destruct r as [u|v]; [|discriminate]. simpl in Hr.
    destruct (IH (called s w ev) s' Hg U Hr) as (Hf & tr & Ht & Hall & Hp).
    split; [assumption|].
    exists (ev :: tr). split; [|split].
    + rewrite Ht. simpl. now rewrite <- app_assoc.
    + now constructor.
    + change (ev :: tr) with ([ev] ++ tr). now rewrite panicValues_app, Hpv, Hp.
Qed.

(** *** What holds of every run, however it ends *)

Lemma callbackEventOf_set_RecoveredPanics (f : Finisher) (rp : list any) :
  callbackEventOf (set_RecoveredPanics f rp) = callbackEventOf f.
Proof. reflexivity. Qed.

Lemma invoke_inv (cb : Pointer) (s : Machine) :
  exists tr rp,
    trace (final (invoke cb s)) = trace s ++ tr /\
    Forall (fun ev => exists cb', callbackEventOf (fin s) cb' ev) tr /\
    fin (final (invoke cb s)) = set_RecoveredPanics (fin s) rp.
Proof.
  destruct (unmarked_dec (fin s)) as [U|U].
  - rewrite (invoke_unmarked cb s U). exists [], (RecoveredPanics (fin s)).
    simpl. now rewrite app_nil_r, set_RecoveredPanics_id.
  - destruct (dispatch_marked cb s U) as (w & r & ev & Hd & Hev & _).
    unfold invoke. rewrite Hd.
    assert (Hall : Forall (fun e => exists cb', callbackEventOf (fin s) cb' e) [ev])
      by (constructor; eauto).
    destruct (TestFlag (Flags (fin s)) CEnablePanicGuard).
    + exists [ev]. eexists. cbn [final fin trace withFin called].
      rewrite protectFromPanic_filter. eauto.
    + exists [ev], (RecoveredPanics (fin s)).
      rewrite set_RecoveredPanics_id. now destruct r.
Qed.

Lemma rangeCallbacks_inv (cbs : list Pointer) :
  forall s : Machine,
  exists tr rp,
    trace (final (rangeCallbacks cbs s)) = trace s ++ tr /\
    Forall (fun ev => exists cb, callbackEventOf (fin s) cb ev) tr /\
    fin (final (rangeCallbacks cbs s)) = set_RecoveredPanics (fin s) rp.
Proof.
  induction cbs as [|cb cbs IH]; intros s.
  - exists [], (RecoveredPanics (fin s)). simpl.
    now rewrite app_nil_r, set_RecoveredPanics_id.
  - simpl. destruct (invoke_inv cb s) as (tr1 & rp1 & Ht1 & Hall1 & Hf1).
    destruct (invoke cb s) as [s1|v s1]; simpl in *.
    + destruct (IH s1) as (tr2 & rp2 & Ht2 & Hall2 & Hf2).
      exists (tr1 ++ tr2), rp2. split; [|split].
      * now rewrite Ht2, Ht1, app_assoc.
      * apply Forall_app. split; [assumption|].
        now rewrite Hf1, callbackEventOf_set_RecoveredPanics in Hall2.
      * now rewrite Hf2, Hf1.
    + exists tr1, rp1. auto.
Qed.

(** *** The transactions *)

Lemma callCompletor_registered (g : @Completor World)
      (ev : Pointer -> Outcome error -> Event) (ctx : Pointer) (s : Machine) :
  callCompletor (Some g) ev ctx s
  = (called s (fst (g ctx (world s))) (ev ctx (snd (g ctx (world s)))),
     snd (g ctx (world s))).
Proof. simpl. now destruct (g ctx (world s)). Qed.

Lemma callCompletor_inv (c : option (@Completor World))
      (ev : Pointer -> Outcome error -> Event) (ctx : Pointer) (s : Machine) :
  fin (fst (callCompletor c ev ctx s)) = fin s /\
  (trace (fst (callCompletor c ev ctx s)) = trace s \/
   trace (fst (callCompletor c ev ctx s))
   = trace s ++ [ev ctx (snd (callCompletor c ev ctx s))]).
Proof.
  destruct c as [g|]; [|simpl; auto].
  rewrite callCompletor_registered. simpl. auto.
Qed.

Lemma trFinishChat_inv (s : Machine) :
  exists tr,
    trace (final (trFinishChat s)) = trace s ++ tr /\
    Forall (fun ev => isChat ev = true /\ eventCtx ev = originalCtx (fin s)) tr /\
    sameWiring (fin s) (fin (final (trFinishChat s))) /\
    RecoveredPanics (fin (final (trFinishChat s))) = RecoveredPanics (fin s).
Proof.
  unfold trFinishChat.
  destruct (TestFlag (Flags (fin s)) CFinishChatTransaction).
  2:{ exists []. simpl. rewrite app_nil_r. repeat split. constructor. }
  destruct (callCompletor_inv (fCompletorChatTransaction G) EvChatTransaction
                              (originalCtx (fin s)) s) as [Hf Ht].
  destruct (callCompletor _ _ _ s) as [s1 r]. simpl in Hf, Ht.
  assert (Htr : exists tr, trace s1 = trace s ++ tr /\
            Forall (fun ev => isChat ev = true
                              /\ eventCtx ev = originalCtx (fin s)) tr).
  { destruct Ht as [Ht|Ht].
    - exists []. rewrite app_nil_r. split; [assumption|constructor].
    - eexists. split; [eassumption|]. constructor; [|constructor]. now split. }
  destruct Htr as (tr & Htr & Hall). exists tr.
  destruct r as [[e|]|v]; simpl; rewrite ?Hf; repeat split; assumption.
Qed.

Lemma trFinish_inv (s : Machine) :
  exists tr,
    trace (final (trFinish s)) = trace s ++ tr /\
    Forall (cleanupEventOf (fin s)) tr /\
    sameWiring (fin s) (fin (final (trFinish s))) /\
    RecoveredPanics (fin (final (trFinish s))) = RecoveredPanics (fin s).
Proof.
  assert (Hchat : forall s0 : Machine, fin s0 = fin s ->
            exists tr,
              trace (final (trFinishChat s0)) = trace s0 ++ tr /\
              Forall (cleanupEventOf (fin s)) tr /\
              sameWiring (fin s) (fin (final (trFinishChat s0))) /\
              RecoveredPanics (fin (final (trFinishChat s0)))
              = RecoveredPanics (fin s)).
  { intros s0 E. destruct (trFinishChat_inv s0) as (tr & Ht & Hall & Hw & Hrp).
    rewrite E in *. exists tr. repeat split; try assumption; try apply Hw.
    eapply Forall_impl; [|exact Hall].
    intros ev [Hc Hx]. split; [now destruct ev|assumption]. }
  unfold trFinish.
  destruct (TestFlag (Flags (fin s)) CFinishSessionTransaction).
  2:{ now apply Hchat. }
  destruct (callCompletor_inv (fCompletorSessionTransaction G)
                              EvSessionTransaction (originalCtx (fin s)) s)
    as [Hf Ht].
  destruct (callCompletor _ _ _ s) as [s1 r]. simpl in Hf, Ht.
  assert (Htr : exists tr, trace s1 = trace s ++ tr /\
                           Forall (cleanupEventOf (fin s)) tr).
  { destruct Ht as [Ht|Ht].
    - exists []. rewrite app_nil_r. split; [assumption|constructor].
    - eexists. split; [eassumption|]. constructor; [|constructor]. now split. }
  destruct Htr as (tr & Htr & Hall).
  destruct r as [[e|]|v].
  - exists tr. simpl. rewrite ?Hf. repeat split; assumption.
  - destruct (Hchat s1 Hf) as (tr2 & Ht2 & Hall2 & Hw2 & Hrp2).
    exists (tr ++ tr2). rewrite Ht2, Htr, app_assoc.
    repeat split; try assumption; try apply Hw2.
    apply Forall_app. now split.
  - exists tr. simpl. rewrite ?Hf. repeat split; assumption.
Qed.

(** *** A whole run *)

Lemma sameWiring_set_RecoveredPanics (f : Finisher) (rp : list any) :
  sameWiring f (set_RecoveredPanics f rp).
Proof. repeat split. Qed.

Lemma Call_inv (s : Machine) :
  exists tr1 tr2,
    trace (final (Call s)) = trace s ++ tr1 ++ tr2 /\
    Forall (fun ev => exists cb, callbackEventOf (fin s) cb ev) tr1 /\
    Forall (cleanupEventOf (fin s)) tr2 /\
    sameWiring (fin s) (fin (final (Call s))).
Proof.
  unfold Call.
  destruct (rangeCallbacks_inv (callbacks (fin s)) s)
    as (tr1 & rp & Ht1 & Hall1 & Hf1).
  destruct (rangeCallbacks (callbacks (fin s)) s) as [s1|v s1]; simpl in *.
  - destruct (trFinish_inv s1) as (tr2 & Ht2 & Hall2 & Hw2 & _).
    exists tr1, tr2. rewrite Ht2, Ht1, app_assoc.
    split; [reflexivity|]. split; [assumption|]. rewrite Hf1 in *. split.
    + exact Hall2.
    + eapply sameWiring_trans; [apply sameWiring_set_RecoveredPanics|exact Hw2].
  - exists tr1, []. rewrite app_nil_r, Hf1.
    repeat split; try assumption. constructor.
Qed.

Lemma Call_callback_events (s : Machine) :
  exists tr1 tr2,
    trace (final (Call s)) = trace s ++ tr1 ++ tr2 /\
    filter isCallback (tr1 ++ tr2) = tr1 /\
    Forall (fun ev => exists cb, callbackEventOf (fin s) cb ev) tr1 /\
    Forall (cleanupEventOf (fin s)) tr2.
Proof.
  destruct (Call_inv s) as (tr1 & tr2 & Ht & H1 & H2 & _).
  exists tr1, tr2. repeat split; try assumption.
  rewrite filter_app, (filter_isCallback_callbacks _ _ H1),
    (filter_isCallback_cleanup _ _ H2).
  apply app_nil_r.
Qed.

Lemma trFinishChat_runs (s : Machine) (g : @Completor World) :
  TestFlag (Flags (fin s)) CFinishChatTransaction = true ->
  fCompletorChatTransaction G = Some g ->
  trace (final (trFinishChat s))
  = trace s ++ [EvChatTransaction (originalCtx (fin s))
                                  (snd (g (originalCtx (fin s)) (world s)))].
Proof.
  intros Hb Hg. unfold trFinishChat.
  rewrite Hb, Hg, callCompletor_registered.
  now destruct (snd (g (originalCtx (fin s)) (world s))) as [[e|]|v].
Qed.

Lemma trFinish_session_runs (s : Machine) (g : @Completor World) :
  TestFlag (Flags (fin s)) CFinishSessionTransaction = true ->
  fCompletorSessionTransaction G = Some g ->
  exists tr,
    trace (final (trFinish s))
    = trace s ++ EvSessionTransaction (originalCtx (fin s))
                   (snd (g (originalCtx (fin s)) (world s))) :: tr.
Proof.
  intros Ha Hg. unfold trFinish.
  rewrite Ha, Hg, callCompletor_registered.
  destruct (snd (g (originalCtx (fin s)) (world s))) as [[e|]|v];
    try (exists []; reflexivity).
  destruct (trFinishChat_inv
              (called s (fst (g (originalCtx (fin s)) (world s)))
                      (EvSessionTransaction (originalCtx (fin s))
                                            (@Returns error None))))
    as (tr & -> & _).
  exists tr. simpl. now rewrite <- app_assoc.
Qed.

(** A completor that returned was registered and has been logged. *)
Lemma callCompletor_returns (c : option (@Completor World))
      (ev : Pointer -> Outcome error -> Event) (ctx : Pointer)
      (s s' : Machine) (err : error) :
  callCompletor c ev ctx s = (s', Returns err) ->
  fin s' = fin s /\ trace s' = trace s ++ [ev ctx (Returns err)].
Proof.
  destruct c as [g|]; [|discriminate].
  rewrite callCompletor_registered. intros H. injection H as <- <-.
  now split.
Qed.

(** ** The claims *)

(** The engines C9 speaks of: fresh from [MakeFinisher], or marked with a nil
    message or a nil error. *)
Lemma unmarked_engines (f : Finisher) (flags : finisherFlag)
      (cbs : list Pointer) (o p : Pointer) :
  unmarked (MakeFinisher flags cbs o p) /\
  unmarked (MakeSuccess f nil_ptr) /\
  unmarked (MakeError f None).
Proof. repeat split. Qed.

(** C1 (the code departs from it).  Whatever callback list is handed to
    [MakeFinisher], the engine it returns holds an empty list: the parameter
    [cbs] is never stored.  A run of that engine, as returned or after
    [MakeSuccess] or [MakeError], therefore calls no callback at all. *)
Theorem MakeFinisher_drops_callbacks
        (flags : finisherFlag) (cbs : list Pointer) (o p : Pointer) (w : World) :
  callbacks (MakeFinisher flags cbs o p) = [] /\
  filter isCallback
    (trace (final (Call (start (MakeFinisher flags cbs o p) w)))) = [] /\
  (forall m,
      filter isCallback
        (trace (final (Call (start (MakeSuccess (MakeFinisher flags cbs o p) m) w))))
      = []) /\
  (forall e,
      filter isCallback
        (trace (final (Call (start (MakeError (MakeFinisher flags cbs o p) e) w))))
      = []).
Proof.
  assert (H : forall f, callbacks f = [] ->
                        filter isCallback (trace (final (Call (start f w)))) = []).
  { intros f Hf. unfold Call. cbn [fin start]. rewrite Hf. cbn [rangeCallbacks bind].
    destruct (trFinish_inv (start f w)) as (tr & -> & Hall & _).
    simpl. eapply filter_isCallback_cleanup, Hall. }
  split; [reflexivity|]. split; [now apply H|].
  split; intros; now apply H.
Qed.

(** C7 (as amended).  After [MakeSuccess] then [MakeError], or [MakeError]
    then [MakeSuccess], the field of the mutator called first is cleared and
    the field of the mutator called last holds the argument of that call; the
    number of populated outcome fields is one when that argument is not nil
    and zero when it is nil. *)
Theorem outcome_mutators_last_wins (f : Finisher) (m : Pointer) (e : error) :
  (sentMsg (MakeError (MakeSuccess f m) e) = nil_ptr /\
   sentErr (MakeError (MakeSuccess f m) e) = e /\
   populated (MakeError (MakeSuccess f m) e) = if nonNil e then 1%nat else 0%nat)
  /\
  (sentMsg (MakeSuccess (MakeError f e) m) = m /\
   sentErr (MakeSuccess (MakeError f e) m) = None /\
   populated (MakeSuccess (MakeError f e) m)
   = if m =? nil_ptr then 0%nat else 1%nat).
Proof.
  unfold populated. simpl. repeat split.
  - now destruct e.
  - destruct (m =? nil_ptr); reflexivity.
Qed.

(** C10.  A run leaves the outcome fields, both context references and the
    callback list as they were, whatever the flags, the callbacks and the
    completors do and whether the run returns or is left by a panic. *)
Theorem Call_frame (f : Finisher) (w : World) :
  sentMsg (fin (final (Call (start f w)))) = sentMsg f /\
  sentErr (fin (final (Call (start f w)))) = sentErr f /\
  originalCtx (fin (final (Call (start f w)))) = originalCtx f /\
  passCallbacksCtx (fin (final (Call (start f w)))) = passCallbacksCtx f /\
  callbacks (fin (final (Call (start f w)))) = callbacks f.
Proof.
  destruct (Call_inv (start f w)) as (tr1 & tr2 & _ & _ & _ & Hw). exact Hw.
Qed.


(** C6.  After [MakeSuccess f m] every callback called by a run gets the
    active context and the message [m], never an error; after [MakeError f e]
    every callback called gets the active context and the error [e], never a
    message. *)
Theorem Call_outcome_dispatch (f : Finisher) (w : World) (m : Pointer) (e : error) :
  Forall (fun ev => exists cb r, ev = EvCallbackMsg cb (passCallbacksCtx f) m r)
         (filter isCallback
                 (trace (final (Call (start (MakeSuccess f m) w))))) /\
  Forall (fun ev => exists cb r, ev = EvCallbackErr cb (passCallbacksCtx f) e r)
         (filter isCallback
                 (trace (final (Call (start (MakeError f e) w))))).
Proof.
  split.
  - destruct (Call_callback_events (start (MakeSuccess f m) w))
      as (tr1 & tr2 & Ht & Hfil & H1 & _).
    rewrite Ht. cbn [trace start app]. rewrite Hfil.
    eapply Forall_impl; [|exact H1]. simpl.
    intros ev (cb & [(_ & r & ->)|(_ & Hn & _)]); [eauto|now elim Hn].
  - destruct (Call_callback_events (start (MakeError f e) w))
      as (tr1 & tr2 & Ht & Hfil & H1 & _).
    rewrite Ht. cbn [trace start app]. rewrite Hfil.
    eapply Forall_impl; [|exact H1]. simpl.
    intros ev (cb & [(Hn & _)|(_ & _ & r & ->)]); [now elim Hn|eauto].
Qed.

(** C9.  With both outcome fields nil (never marked, or marked as a success
    with a nil message) the loop over the callbacks calls no callback and
    changes nothing, and the run is the transaction part alone.  The session
    completor is called when requested, on the world the run started in.  The
    chat completor is called when requested and the session stage was not
    requested, or was requested and returned no error: the run then consists
    of exactly these completor calls, the chat completor is applied to the
    world it finds (the initial one, or the one the session completor left),
    its result is the one logged and the world it leaves is the final one. *)
Theorem Call_unmarked (f : Finisher) (w : World) :
  sentMsg f = nil_ptr ->
  sentErr f = None ->
  rangeCallbacks (callbacks f) (start f w) = Done (start f w) /\
  Call (start f w) = trFinish (start f w) /\
  filter isCallback (trace (final (Call (start f w)))) = [] /\
  (forall g,
      TestFlag (Flags f) CFinishSessionTransaction = true ->
      fCompletorSessionTransaction G = Some g ->
      exists tr,
        trace (final (Call (start f w)))
        = EvSessionTransaction (originalCtx f) (snd (g (originalCtx f) w)) :: tr) /\
  (forall g,
      TestFlag (Flags f) CFinishSessionTransaction = false ->
      TestFlag (Flags f) CFinishChatTransaction = true ->
      fCompletorChatTransaction G = Some g ->
      trace (final (Call (start f w)))
      = [EvChatTransaction (originalCtx f) (snd (g (originalCtx f) w))] /\
      world (final (Call (start f w))) = fst (g (originalCtx f) w)) /\
  (forall gs g,
      TestFlag (Flags f) CFinishSessionTransaction = true ->
      fCompletorSessionTransaction G = Some gs ->
      snd (gs (originalCtx f) w) = Returns None ->
      TestFlag (Flags f) CFinishChatTransaction = true ->
      fCompletorChatTransaction G = Some g ->
      trace (final (Call (start f w)))
      = [EvSessionTransaction (originalCtx f) (Returns None);
         EvChatTransaction (originalCtx f)
                           (snd (g (originalCtx f) (fst (gs (originalCtx f) w))))] /\
      world (final (Call (start f w)))
      = fst (g (originalCtx f) (fst (gs (originalCtx f) w)))).
Proof.
  intros Hm He.
  assert (U : unmarked (fin (start f w))) by now split.
  assert (Hloop : rangeCallbacks (callbacks f) (start f w) = Done (start f w))
    by now apply rangeCallbacks_unmarked.
  assert (Hcall : Call (start f w) = trFinish (start f w))
    by (unfold Call; cbn [fin start]; now rewrite Hloop).
  split; [exact Hloop|]. split; [exact Hcall|]. rewrite Hcall.
  split; [|split; [|split]].
  - destruct (trFinish_inv (start f w)) as (tr & -> & Hall & _).
    simpl. eapply filter_isCallback_cleanup, Hall.
  - intros g Ha Hg.
    destruct (trFinish_session_runs (start f w) g Ha Hg) as (tr & ->).
    now exists tr.
  - intros g Ha Hb Hg. unfold trFinish, trFinishChat. cbn [fin start].
    rewrite Ha, Hb, Hg, callCompletor_registered. cbn [world start].
    destruct (g (originalCtx f) w) as [w' [[e|]|v]]; split; reflexivity.
  - intros gs g Ha Hgs Hret Hb Hg. unfold trFinish. cbn [fin start].
    rewrite Ha, Hgs, callCompletor_registered. cbn [world start].
    rewrite Hret. unfold trFinishChat. cbn [fin world called start].
    rewrite Hb, Hg, callCompletor_registered. cbn [world called start].
    destruct (g (originalCtx f) (fst (gs (originalCtx f) w))) as [w' [[e|]|v]];
      split; reflexivity.
Qed.

(** C2 (as amended).  When the session transaction is requested, the loop
    over the callbacks has returned and the registered session completor
    returns the error [e], the run returns without calling the chat
    completor, [CIsSessionTransactionError] is set and [TrSessionError] gives
    [e], for every engine, the ones constructed with failure flags
    included; [TrChatError] gives nil provided [CIsChatTransactionError] was
    not set in the flags the run started with. *)
Theorem session_failure_stops_cleanup
        (f : Finisher) (w : World) (s1 s2 : Machine) (e : string) :
  TestFlag (Flags f) CFinishSessionTransaction = true ->
  rangeCallbacks (callbacks f) (start f w) = Done s1 ->
  callCompletor (fCompletorSessionTransaction G) EvSessionTransaction
                (originalCtx f) s1 = (s2, Returns (Some e)) ->
  exists s' : Machine,
    Call (start f w) = Done s' /\
    filter isChat (trace s') = [] /\
    TestFlag (Flags (fin s')) CIsSessionTransactionError = true /\
    TrSessionError (fin s') = Some e /\
    (TestFlag (Flags f) CIsChatTransactionError = false ->
     TrChatError (fin s') = None).
Proof.
  intros Ha Hloop Hsess.
  destruct (rangeCallbacks_inv (callbacks f) (start f w))
    as (tr1 & rp & Ht1 & Hall1 & Hf1).
  rewrite Hloop in Ht1, Hf1. cbn [final fin trace start app] in Ht1, Hf1.
  destruct (callCompletor_returns _ _ _ _ _ _ Hsess) as [Hf2 Ht2].
  eexists. split.
  - unfold Call. cbn [fin start]. rewrite Hloop. cbn [bind]. unfold trFinish.
    rewrite Hf1. cbn [Flags originalCtx set_RecoveredPanics].
    rewrite Ha, Hsess. reflexivity.
  - unfold TrSessionError, TrChatError.
    cbn [fin trace withFin Flags Err set_Flags set_Err].
    rewrite Hf2, Hf1. cbn [Flags set_RecoveredPanics].
    split; [|split; [|split]].
    + rewrite Ht2, Ht1, filter_app.
      now rewrite (proj2 (no_cleanup_among_callbacks _ _ Hall1)).
    + now apply TestFlag_SetFlag_same.
    + now rewrite TestFlag_SetFlag_same.
    + intros Hclean. now rewrite TestFlag_SetFlag_other, Hclean.
Qed.

(** C3 (as amended).  When the chat transaction is requested, the loop over
    the callbacks has returned, the session transaction is not requested or
    its registered completor returns no error, and the registered chat
    completor returns the error [e], the run returns,
    [CIsChatTransactionError] is set and [TrChatError] gives [e], for every
    engine, the ones constructed with failure flags included;
    [TrSessionError] gives nil provided [CIsSessionTransactionError] was not
    set in the flags the run started with. *)
Theorem chat_failure_recorded
        (f : Finisher) (w : World) (s1 s2 s3 : Machine) (e : string) :
  TestFlag (Flags f) CFinishChatTransaction = true ->
  rangeCallbacks (callbacks f) (start f w) = Done s1 ->
  (TestFlag (Flags f) CFinishSessionTransaction = false /\ s2 = s1) \/
  (TestFlag (Flags f) CFinishSessionTransaction = true /\
   callCompletor (fCompletorSessionTransaction G) EvSessionTransaction
                 (originalCtx f) s1 = (s2, Returns None)) ->
  callCompletor (fCompletorChatTransaction G) EvChatTransaction
                (originalCtx f) s2 = (s3, Returns (Some e)) ->
  exists s' : Machine,
    Call (start f w) = Done s' /\
    TestFlag (Flags (fin s')) CIsChatTransactionError = true /\
    TrChatError (fin s') = Some e /\
    (TestFlag (Flags f) CIsSessionTransactionError = false ->
     TrSessionError (fin s') = None).
Proof.
  intros Hb Hloop Hsess Hchat.
  destruct (rangeCallbacks_inv (callbacks f) (start f w))
    as (tr1 & rp & _ & _ & Hf1).
  rewrite Hloop in Hf1. cbn [final fin start] in Hf1.
  assert (Hf2 : fin s2 = fin s1).
  { destruct Hsess as [[_ ->]|[_ Hs]]; [reflexivity|].
    apply (callCompletor_returns _ _ _ _ _ _ Hs). }
  destruct (callCompletor_returns _ _ _ _ _ _ Hchat) as [Hf3 _].
  assert (Hfin : trFinishChat s2
                 = Done (withFin s3
                           (set_Flags (set_Err (fin s3) (Some e))
                              (SetFlag (Flags (set_Err (fin s3) (Some e)))
                                       CIsChatTransactionError)))).
  { unfold trFinishChat. rewrite Hf2, Hf1.
    cbn [Flags originalCtx set_RecoveredPanics]. now rewrite Hb, Hchat. }
  eexists. split.
  - unfold Call. cbn [fin start]. rewrite Hloop. cbn [bind]. unfold trFinish.
    rewrite Hf1. cbn [Flags originalCtx set_RecoveredPanics].
    destruct Hsess as [[Ha ->]|[Ha Hs]]; rewrite Ha.
    + exact Hfin.
    + rewrite Hs. exact Hfin.
  - unfold TrSessionError, TrChatError.
    cbn [fin withFin Flags Err set_Flags set_Err].
    rewrite Hf3, Hf2, Hf1. cbn [Flags set_RecoveredPanics].
    split; [|split].
    + now apply TestFlag_SetFlag_same.
    + now rewrite TestFlag_SetFlag_same.
    + intros Hclean. now rewrite TestFlag_SetFlag_other, Hclean.
Qed.

(** What the panic guard gives for every engine with an outcome marked: the
    loop over the callbacks always returns, every callback of the list is
    called, once and in list order, whichever of them panic, the run goes on
    to the transactions, and [RecoveredPanics] gains, in the order of the
    panics, the values [recover()] reported that are not nil. *)
Theorem panic_guard_contains_panics (f : Finisher) (w : World) :
  TestFlag (Flags f) CEnablePanicGuard = true ->
  sentMsg f <> nil_ptr \/ sentErr f <> None ->
  exists s1 : Machine,
    rangeCallbacks (callbacks f) (start f w) = Done s1 /\
    Forall2 (callbackEventOf f) (callbacks f) (trace s1) /\
    RecoveredPanics (fin s1)
    = RecoveredPanics f ++ filter nonNil (panicValues (trace s1)) /\
    Call (start f w) = trFinish s1 /\
    filter isCallback (trace (final (Call (start f w)))) = trace s1 /\
    RecoveredPanics (fin (final (Call (start f w))))
    = RecoveredPanics f ++ filter nonNil (panicValues (trace s1)).
Proof.
  intros Hg Hmarked.
  assert (U : ~ unmarked (fin (start f w))).
  { intros [Hm He]. simpl in Hm, He. tauto. }
  destruct (rangeCallbacks_guarded (callbacks f) (start f w) Hg U)
    as (s1 & tr & Hloop & Ht & Hall & Hf).
  cbn [fin trace start app] in Ht, Hall, Hf. subst tr.
  assert (Hcall : Call (start f w) = trFinish s1)
    by (unfold Call; cbn [fin start]; now rewrite Hloop).
  exists s1. split; [exact Hloop|]. split; [exact Hall|].
  split; [now rewrite Hf|]. split; [exact Hcall|].
  rewrite Hcall.
  destruct (trFinish_inv s1) as (tr2 & -> & Hall2 & _ & ->).
  split; [|now rewrite Hf].
  rewrite filter_app, (filter_isCallback_cleanup _ _ Hall2), app_nil_r.
  eapply filter_isCallback_callbacks, Forall2_callbackEventOf_Forall, Hall.
Qed.

(** C5.  Without the panic guard, when the callbacks before some callback of
    the list have returned and that callback panics with [v], the run is left
    by a panic with [v] at once: the calls made are those of the callbacks up
    to and including the panicking one, in list order, no later callback and
    no completor is called, and no field of the engine has been written. *)
Theorem unguarded_panic_aborts
        (f : Finisher) (w : World) (pre post : list Pointer) (cb : Pointer)
        (s1 s2 : Machine) (v : any) :
  TestFlag (Flags f) CEnablePanicGuard = false ->
  callbacks f = pre ++ cb :: post ->
  rangeCallbacks pre (start f w) = Done s1 ->
  dispatch cb s1 = (s2, Panics v) ->
  Call (start f w) = Panic v s2 /\
  Forall2 (callbackEventOf f) (pre ++ [cb]) (trace s2) /\
  filter isSession (trace s2) = [] /\
  filter isChat (trace s2) = [] /\
  fin s2 = f.
Proof.
  intros Hg Hcbs Hpre Hd.
  assert (U : ~ unmarked (fin (start f w))).
  { intros U. rewrite (rangeCallbacks_unmarked pre _ U) in Hpre.
    injection Hpre as <-. rewrite (dispatch_unmarked cb _ U) in Hd.
    discriminate. }
  destruct (rangeCallbacks_unguarded pre (start f w) s1 Hg U Hpre)
    as (Hf1 & tr & Ht & Hall & _).
  cbn [fin trace start app] in Hf1, Ht, Hall.
  assert (U1 : ~ unmarked (fin s1)) by now rewrite Hf1.
  destruct (dispatch_marked cb s1 U1) as (w' & r & ev & Hd' & Hev & _).
  rewrite Hd in Hd'. injection Hd' as -> <-.
  assert (Hall2 : Forall2 (callbackEventOf f) (pre ++ [cb]) (trace (called s1 w' ev))).
  { cbn [trace called]. rewrite Ht. apply Forall2_app; [assumption|].
    constructor; [|constructor]. now rewrite Hf1 in Hev. }
  split; [|split; [exact Hall2|]].
  - unfold Call. cbn [fin start]. rewrite Hcbs, rangeCallbacks_app, Hpre.
    cbn [bind rangeCallbacks]. rewrite invoke_unguarded by now rewrite Hf1.
    now rewrite Hd.
  - destruct (no_cleanup_among_callbacks f _
                (Forall2_callbackEventOf_Forall _ _ _ Hall2)) as [H1 H2].
    now repeat split.
Qed.

(** ** Further properties of a run *)

(** *** The shape of the transaction part *)

Lemma trFinishChat_shape (s : Machine) :
  exists tr,
    trace (final (trFinishChat s)) = trace s ++ tr /\
    (TestFlag (Flags (fin s)) CFinishChatTransaction = false -> tr = []) /\
    (tr = [] \/ exists r, tr = [EvChatTransaction (originalCtx (fin s)) r]) /\
    (fin (final (trFinishChat s)) = fin s \/
     exists e,
       tr = [EvChatTransaction (originalCtx (fin s)) (Returns (Some e))] /\
       TestFlag (Flags (fin s)) CFinishChatTransaction = true /\
       fin (final (trFinishChat s))
       = recordFailure (fin s) e CIsChatTransactionError).
Proof.
  unfold trFinishChat, callCompletor.
  destruct (TestFlag (Flags (fin s)) CFinishChatTransaction) eqn:Hb.
  2:{ exists []. simpl. rewrite app_nil_r. auto. }
  destruct (fCompletorChatTransaction G) as [g|].
  2:{ exists []. simpl. rewrite app_nil_r. repeat split; auto. }
  destruct (g (originalCtx (fin s)) (world s)) as [w [[e|]|v]];
    eexists; (split; [reflexivity|]);
    (split; [discriminate|]); (split; [right; eauto|]); simpl; eauto.
Qed.

Lemma trFinish_shape (s : Machine) :
  exists tr,
    trace (final (trFinish s)) = trace s ++ tr /\
    cleanupLog (originalCtx (fin s)) tr /\
    (TestFlag (Flags (fin s)) CFinishSessionTransaction = false ->
     filter isSession tr = []) /\
    (TestFlag (Flags (fin s)) CFinishChatTransaction = false ->
     filter isChat tr = []) /\
    (fin (final (trFinish s)) = fin s \/
     (exists e,
         tr = [EvSessionTransaction (originalCtx (fin s)) (Returns (Some e))] /\
         TestFlag (Flags (fin s)) CFinishSessionTransaction = true /\
         fin (final (trFinish s))
         = recordFailure (fin s) e CIsSessionTransactionError) \/
     (exists e tr0,
         tr = tr0 ++ [EvChatTransaction (originalCtx (fin s)) (Returns (Some e))] /\
         TestFlag (Flags (fin s)) CFinishChatTransaction = true /\
         fin (final (trFinish s))
         = recordFailure (fin s) e CIsChatTransactionError)).
Proof.
  assert (Hchat : forall (s0 : Machine) (pre : list Event),
            fin s0 = fin s -> trace s0 = trace s ++ pre ->
            filter isSession pre = pre ->
            (pre = [] \/
             pre = [EvSessionTransaction (originalCtx (fin s)) (Returns None)]) ->
            exists tr,
              trace (final (trFinishChat s0)) = trace s ++ tr /\
              cleanupLog (originalCtx (fin s)) tr /\
              (pre = [] -> filter isSession tr = []) /\
              (TestFlag (Flags (fin s)) CFinishChatTransaction = false ->
               filter isChat tr = []) /\
              (fin (final (trFinishChat s0)) = fin s \/
               (exists e tr0,
                   tr = tr0 ++ [EvChatTransaction (originalCtx (fin s))
                                                  (Returns (Some e))] /\
                   TestFlag (Flags (fin s)) CFinishChatTransaction = true /\
                   fin (final (trFinishChat s0))
                   = recordFailure (fin s) e CIsChatTransactionError))).
  { intros s0 pre Hf Ht Hpre Hshape.
    destruct (trFinishChat_shape s0) as (tr & Htr & Hoff & Hone & Heff).
    rewrite Hf in *. exists (pre ++ tr).
    split; [now rewrite Htr, Ht, app_assoc|]. split; [|split; [|split]].
    - unfold cleanupLog.
      destruct Hshape as [->| ->]; destruct Hone as [->|[r ->]]; simpl; eauto 6.
    - intros ->. destruct Hone as [->|[r ->]]; reflexivity.
    - intros Hb. rewrite (Hoff Hb), app_nil_r.
      destruct Hshape as [->| ->]; reflexivity.
    - destruct Heff as [Heff|(e & -> & Hb & Heff)]; [now left|].
      right. exists e, pre. auto. }
  unfold trFinish, callCompletor.
  destruct (TestFlag (Flags (fin s)) CFinishSessionTransaction) eqn:Ha.
  2:{ destruct (Hchat s [] eq_refl (eq_sym (app_nil_r _)) eq_refl (or_introl eq_refl))
        as (tr & Ht & Hlog & Hs & Hc & Heff).
      exists tr. repeat split; auto.
      destruct Heff as [Heff|Heff]; auto. }
  destruct (fCompletorSessionTransaction G) as [g|].
  2:{ exists []. simpl. rewrite app_nil_r. repeat split; auto. now left. }
  destruct (g (originalCtx (fin s)) (world s)) as [w [[e|]|v]].
  - eexists. split; [reflexivity|]. split; [right; left; eauto|].
    split; [discriminate|]. split; [reflexivity|].
    right. left. exists e. auto.
  - edestruct (Hchat (called s w (EvSessionTransaction (originalCtx (fin s))
                                                       (@Returns error None)))
                     [EvSessionTransaction (originalCtx (fin s)) (@Returns error None)])
      as (tr & Ht & Hlog & _ & Hc & Heff); try reflexivity.
    { now right. }
    exists tr. split; [exact Ht|]. split; [exact Hlog|].
    split; [discriminate|]. split; [exact Hc|].
    destruct Heff as [Heff|Heff]; auto.
  - eexists. split; [reflexivity|]. split; [right; left; eauto|].
    split; [discriminate|]. split; [reflexivity|]. now left.
Qed.

(** A whole run: the calls of callbacks, then those of completors, and the
    engine the two parts leave. *)
Lemma Call_shape (f : Finisher) (w : World) :
  exists tr1 tr2 rp,
    trace (final (Call (start f w))) = tr1 ++ tr2 /\
    Forall (fun ev => exists cb, callbackEventOf f cb ev) tr1 /\
    cleanupLog (originalCtx f) tr2 /\
    (TestFlag (Flags f) CFinishSessionTransaction = false ->
     filter isSession tr2 = []) /\
    (TestFlag (Flags f) CFinishChatTransaction = false ->
     filter isChat tr2 = []) /\
    fin (final (rangeCallbacks (callbacks f) (start f w)))
    = set_RecoveredPanics f rp /\
    (fin (final (Call (start f w))) = set_RecoveredPanics f rp \/
     (exists e,
         tr2 = [EvSessionTransaction (originalCtx f) (Returns (Some e))] /\
         TestFlag (Flags f) CFinishSessionTransaction = true /\
         fin (final (Call (start f w)))
         = recordFailure (set_RecoveredPanics f rp) e CIsSessionTransactionError) \/
     (exists e tr0,
         tr2 = tr0 ++ [EvChatTransaction (originalCtx f) (Returns (Some e))] /\
         TestFlag (Flags f) CFinishChatTransaction = true /\
         fin (final (Call (start f w)))
         = recordFailure (set_RecoveredPanics f rp) e CIsChatTransactionError)).
Proof.
  unfold Call. cbn [fin start].
  destruct (rangeCallbacks_inv (callbacks f) (start f w))
    as (tr1 & rp & Ht1 & Hall1 & Hf1).
  cbn [fin trace start app] in Ht1, Hall1, Hf1.
  destruct (rangeCallbacks (callbacks f) (start f w)) as [s1|v s1];
    cbn [final bind] in *.
  - destruct (trFinish_shape s1) as (tr2 & Ht2 & Hlog & Hs & Hc & Heff).
    rewrite Hf1 in Hlog, Hs, Hc, Heff.
    cbn [Flags originalCtx set_RecoveredPanics] in Hlog, Hs, Hc, Heff.
    exists tr1, tr2, rp. rewrite Ht2, Ht1. repeat split; auto.
  - exists tr1, [], rp. rewrite app_nil_r. repeat split; auto. now left.
Qed.

(** *** The loop, once more *)

Lemma invoke_marked (cb : Pointer) (s : Machine) :
  ~ unmarked (fin s) ->
  exists ev new,
    trace (final (invoke cb s)) = trace s ++ [ev] /\
    callbackEventOf (fin s) cb ev /\
    fin (final (invoke cb s))
    = set_RecoveredPanics (fin s) (RecoveredPanics (fin s) ++ new) /\
    Forall (fun v => v <> None) new /\
    (TestFlag (Flags (fin s)) CEnablePanicGuard = false -> new = []).
Proof.
  intros U. destruct (dispatch_marked cb s U) as (w & r & ev & Hd & Hev & _).
  unfold invoke. rewrite Hd.
  destruct (TestFlag (Flags (fin s)) CEnablePanicGuard).
  - exists ev, (filter nonNil [recover r]).
    cbn [final fin trace withFin called]. rewrite protectFromPanic_filter.
    repeat split; auto; [|discriminate].
    destruct r as [u|[d|]]; simpl; repeat constructor. discriminate.
  - exists ev, []. rewrite app_nil_r, set_RecoveredPanics_id.
    destruct r; repeat split; auto.
Qed.

Lemma rangeCallbacks_marked (cbs : list Pointer) :
  forall s : Machine,
    ~ unmarked (fin s) ->
    exists n tr new,
      trace (final (rangeCallbacks cbs s)) = trace s ++ tr /\
      Forall2 (callbackEventOf (fin s)) (firstn n cbs) tr /\
      fin (final (rangeCallbacks cbs s))
      = set_RecoveredPanics (fin s) (RecoveredPanics (fin s) ++ new) /\
      Forall (fun v => v <> None) new /\
      (TestFlag (Flags (fin s)) CEnablePanicGuard = false -> new = []).
Proof.
  induction cbs as [|cb cbs IH]; intros s U.
  - exists 0%nat, [], []. simpl.
    rewrite !app_nil_r, set_RecoveredPanics_id. repeat split; constructor.
  - destruct (invoke_marked cb s U) as (ev & new1 & Ht1 & Hev & Hf1 & Hnn1 & Hg1).
    simpl. destruct (invoke cb s) as [s1|v s1]; cbn [final bind] in *.
    + destruct (IH s1) as (n & tr & new2 & Ht2 & Hall & Hf2 & Hnn2 & Hg2);
        [now rewrite Hf1|].
      rewrite Hf1 in Hall, Hf2, Hg2.
      cbn [Flags RecoveredPanics set_RecoveredPanics] in Hf2, Hg2.
      exists (S n), (ev :: tr), (new1 ++ new2). split; [|split; [|split; [|split]]].
      * rewrite Ht2, Ht1, <- app_assoc. reflexivity.
      * simpl. constructor; assumption.
      * rewrite Hf2, app_assoc. reflexivity.
      * apply Forall_app. now split.
      * intros Hg. now rewrite (Hg1 Hg), (Hg2 Hg).
    + exists 1%nat, [ev], new1.
      split; [exact Ht1|]. split; [|auto].
      simpl. constructor; [exact Hev|constructor].
Qed.

(** ** Further properties, one by one *)

(** X1.  The calls of a run come in two blocks: first calls of callbacks
    only, then the completor calls, which are none, the session completor
    alone, the chat completor alone, or the session completor returning no
    error followed by the chat completor.  Each completor is called at most
    once, always with the original context, the session one first. *)
Theorem Call_order (f : Finisher) (w : World) :
  exists tr1 tr2,
    trace (final (Call (start f w))) = tr1 ++ tr2 /\
    Forall (fun ev => isCallback ev = true) tr1 /\
    cleanupLog (originalCtx f) tr2.
Proof.
  destruct (Call_shape f w) as (tr1 & tr2 & rp & Ht & H1 & Hlog & _).
  exists tr1, tr2. repeat split; auto.
  eapply Forall_impl; [|exact H1]. simpl.
  now intros ev (cb & [(_ & r & ->)|(_ & _ & r & ->)]).
Qed.

(** X2.  Whatever the flags and however the run ends, the callbacks called
    are an initial segment of the callback list: each entry of the segment is
    called once, in list order, with the context and outcome [invoke] passes,
    and no entry is skipped. *)
Theorem Call_calls_initial_segment (f : Finisher) (w : World) :
  exists n,
    Forall2 (callbackEventOf f) (firstn n (callbacks f))
            (filter isCallback (trace (final (Call (start f w))))).
Proof.
  destruct (unmarked_dec f) as [U|U].
  - exists 0%nat. unfold Call. cbn [fin start].
    rewrite (rangeCallbacks_unmarked (callbacks f) (start f w) U). cbn [bind].
    destruct (trFinish_inv (start f w)) as (tr & -> & Hall & _).
    simpl. rewrite (filter_isCallback_cleanup _ _ Hall). constructor.
  - destruct (rangeCallbacks_marked (callbacks f) (start f w) U)
      as (n & tr & new & Ht & Hall & Hf & _).
    cbn [fin trace start app] in Ht, Hall, Hf.
    exists n. unfold Call. cbn [fin start].
    assert (Hcb : filter isCallback tr = tr)
      by (eapply filter_isCallback_callbacks, Forall2_callbackEventOf_Forall, Hall).
    destruct (rangeCallbacks (callbacks f) (start f w)) as [s1|v s1];
      cbn [final bind] in *.
    + destruct (trFinish_inv s1) as (tr2 & -> & Hall2 & _).
      rewrite Ht, filter_app, Hcb, (filter_isCallback_cleanup _ _ Hall2), app_nil_r.
      exact Hall.
    + now rewrite Ht, Hcb.
Qed.

(** X3.  When neither failure flag is set as the run starts, at most one of
    the two accessors reports an error after it: [trFinish] records the
    failure of one stage only. *)
Theorem accessors_exclusive (f : Finisher) (w : World) :
  TestFlag (Flags f) CIsSessionTransactionError = false ->
  TestFlag (Flags f) CIsChatTransactionError = false ->
  TrSessionError (fin (final (Call (start f w)))) = None \/
  TrChatError (fin (final (Call (start f w)))) = None.
Proof.
  intros Hs Hc.
  destruct (Call_shape f w) as (tr1 & tr2 & rp & _ & _ & _ & _ & _ & _ & Heff).
  unfold TrSessionError, TrChatError.
  destruct Heff as [->|[(e & _ & _ & ->)|(e & tr0 & _ & _ & ->)]];
    cbn [Flags Err recordFailure set_Flags set_Err set_RecoveredPanics].
  - left. now rewrite Hs.
  - right. now rewrite TestFlag_SetFlag_other, Hc.
  - left. now rewrite TestFlag_SetFlag_other, Hs.
Qed.

(** X4.  [TrSessionError] "returns nil if that operation was not required":
    when [CFinishSessionTransaction] is not set, and
    [CIsSessionTransactionError] is not already set, the accessor returns nil
    after the run, whatever the callbacks and the chat completor did. *)
Theorem TrSessionError_not_required (f : Finisher) (w : World) :
  TestFlag (Flags f) CFinishSessionTransaction = false ->
  TestFlag (Flags f) CIsSessionTransactionError = false ->
  TrSessionError (fin (final (Call (start f w)))) = None.
Proof.
  intros Ha Hs.
  destruct (Call_shape f w) as (tr1 & tr2 & rp & _ & _ & _ & _ & _ & _ & Heff).
  unfold TrSessionError.
  destruct Heff as [->|[(e & _ & Ha' & _)|(e & tr0 & _ & _ & ->)]];
    cbn [Flags Err recordFailure set_Flags set_Err set_RecoveredPanics].
  - now rewrite Hs.
  - congruence.
  - now rewrite TestFlag_SetFlag_other, Hs.
Qed.

(** X5.  [TrChatError] "returns nil if that operation was not required":
    when [CFinishChatTransaction] is not set, and [CIsChatTransactionError]
    is not already set, the accessor returns nil after the run, whatever the
    callbacks and the session completor did. *)
Theorem TrChatError_not_required (f : Finisher) (w : World) :
  TestFlag (Flags f) CFinishChatTransaction = false ->
  TestFlag (Flags f) CIsChatTransactionError = false ->
  TrChatError (fin (final (Call (start f w)))) = None.
Proof.
  intros Hb Hc.
  destruct (Call_shape f w) as (tr1 & tr2 & rp & _ & _ & _ & _ & _ & _ & Heff).
  unfold TrChatError.
  destruct Heff as [->|[(e & _ & _ & ->)|(e & tr0 & _ & Hb' & _)]];
    cbn [Flags Err recordFailure set_Flags set_Err set_RecoveredPanics].
  - now rewrite Hc.
  - now rewrite TestFlag_SetFlag_other, Hc.
  - congruence.
Qed.

(** X6.  A run writes [Err] and the flags together or not at all: either
    both are as before, or a completor called in this run returned a non-nil
    error, [Err] holds that error and the failure flag of that completor has
    been added to the flags. *)
Theorem Err_written_with_flag (f : Finisher) (w : World) :
  (Flags (fin (final (Call (start f w)))) = Flags f /\
   Err (fin (final (Call (start f w)))) = Err f) \/
  (exists e,
      In (EvSessionTransaction (originalCtx f) (Returns (Some e)))
         (trace (final (Call (start f w)))) /\
      Flags (fin (final (Call (start f w))))
      = SetFlag (Flags f) CIsSessionTransactionError /\
      Err (fin (final (Call (start f w)))) = Some e) \/
  (exists e,
      In (EvChatTransaction (originalCtx f) (Returns (Some e)))
         (trace (final (Call (start f w)))) /\
      Flags (fin (final (Call (start f w))))
      = SetFlag (Flags f) CIsChatTransactionError /\
      Err (fin (final (Call (start f w)))) = Some e).
Proof.
  destruct (Call_shape f w) as (tr1 & tr2 & rp & Ht & _ & _ & _ & _ & _ & Heff).
  rewrite Ht.
  destruct Heff as [->|[(e & -> & _ & ->)|(e & tr0 & -> & _ & ->)]].
  - left. split; reflexivity.
  - right. left. exists e. split; [|split; reflexivity].
    apply in_or_app. right. now left.
  - right. right. exists e. split; [|split; reflexivity].
    apply in_or_app. right. apply in_or_app. right. now left.
Qed.

(** X7.  A run never clears a flag: every option set when it starts, the
    failure flags of an earlier run included, is still set when it ends. *)
Theorem Call_keeps_flags (f : Finisher) (w : World) (c : finisherFlag) :
  TestFlag (Flags f) c = true ->
  TestFlag (Flags (fin (final (Call (start f w))))) c = true.
Proof.
  intros Hc.
  destruct (Call_shape f w) as (tr1 & tr2 & rp & _ & _ & _ & _ & _ & _ & Heff).
  destruct Heff as [->|[(e & _ & _ & ->)|(e & tr0 & _ & _ & ->)]];
    cbn [Flags Err recordFailure set_Flags set_Err set_RecoveredPanics];
    [assumption|now apply TestFlag_SetFlag_mono..].
Qed.

(** X8.  A run only appends to [RecoveredPanics]: what was there stays,
    in place; no appended entry is nil; and without the panic guard nothing
    is appended at all. *)
Theorem RecoveredPanics_grows (f : Finisher) (w : World) :
  exists new,
    RecoveredPanics (fin (final (Call (start f w)))) = RecoveredPanics f ++ new /\
    Forall (fun v => v <> None) new /\
    (TestFlag (Flags f) CEnablePanicGuard = false -> new = []).
Proof.
  assert (Hloop : exists new,
             RecoveredPanics (fin (final (rangeCallbacks (callbacks f) (start f w))))
             = RecoveredPanics f ++ new /\
             Forall (fun v => v <> None) new /\
             (TestFlag (Flags f) CEnablePanicGuard = false -> new = [])).
  { destruct (unmarked_dec f) as [U|U].
    - rewrite (rangeCallbacks_unmarked (callbacks f) (start f w) U).
      exists []. simpl. rewrite app_nil_r. repeat split; auto.
    - destruct (rangeCallbacks_marked (callbacks f) (start f w) U)
        as (n & tr & new & _ & _ & Hf & Hnn & Hg).
      exists new. rewrite Hf. auto. }
  destruct Hloop as (new & Hrp & Hnn & Hg). exists new.
  split; [|auto]. unfold Call. cbn [fin start].
  destruct (rangeCallbacks (callbacks f) (start f w)) as [s1|v s1];
    cbn [final bind] in *; [|exact Hrp].
  destruct (trFinish_inv s1) as (tr2 & _ & _ & _ & ->). exact Hrp.
Qed.

(** X9.  The panic guard covers the callbacks only.  When the session
    transaction is requested and its completor panics, the run is left by
    that panic, with or without [CEnablePanicGuard]: the chat completor is
    not called, and [RecoveredPanics], [Flags] and [Err] stay as the loop
    over the callbacks left them. *)
Theorem completor_panic_escapes
        (f : Finisher) (w : World) (s1 s2 : Machine) (v : any) :
  TestFlag (Flags f) CFinishSessionTransaction = true ->
  rangeCallbacks (callbacks f) (start f w) = Done s1 ->
  callCompletor (fCompletorSessionTransaction G) EvSessionTransaction
                (originalCtx f) s1 = (s2, Panics v) ->
  Call (start f w) = Panic v s2 /\
  filter isChat (trace s2) = [] /\
  fin s2 = fin s1 /\
  Flags (fin s2) = Flags f /\
  Err (fin s2) = Err f.
Proof.
  intros Ha Hloop Hsess.
  destruct (rangeCallbacks_inv (callbacks f) (start f w))
    as (tr1 & rp & Ht1 & Hall1 & Hf1).
  rewrite Hloop in Ht1, Hf1. cbn [final fin trace start app] in Ht1, Hall1, Hf1.
  pose proof (callCompletor_inv (fCompletorSessionTransaction G)
                                EvSessionTransaction (originalCtx f) s1) as [Hf2 Ht2].
  rewrite Hsess in Hf2, Ht2. cbn [fst snd] in Hf2, Ht2.
  split; [|split; [|split; [exact Hf2|now rewrite Hf2, Hf1]]].
  - unfold Call. cbn [fin start]. rewrite Hloop. cbn [bind]. unfold trFinish.
    rewrite Hf1. cbn [Flags originalCtx set_RecoveredPanics].
    now rewrite Ha, Hsess.
  - destruct (no_cleanup_among_callbacks _ _ Hall1) as [_ Hchat].
    destruct Ht2 as [->| ->]; rewrite Ht1; [exact Hchat|].
    rewrite filter_app, Hchat. reflexivity.
Qed.

(** X10.  Before [InitCompletors] the completors are nil func values.  A run
    that requests a transaction whose completor is nil is left, once the
    callbacks have returned, by the run-time panic of a call through a nil
    func; nothing is logged or written for that stage. *)
Theorem unregistered_completor_panics (f : Finisher) (w : World) (s1 : Machine) :
  rangeCallbacks (callbacks f) (start f w) = Done s1 ->
  (TestFlag (Flags f) CFinishSessionTransaction = true /\
   fCompletorSessionTransaction G = None) \/
  (TestFlag (Flags f) CFinishSessionTransaction = false /\
   TestFlag (Flags f) CFinishChatTransaction = true /\
   fCompletorChatTransaction G = None) ->
  Call (start f w) = Panic (Some nilFuncCall) s1.
Proof.
  intros Hloop Hnil.
  destruct (rangeCallbacks_inv (callbacks f) (start f w))
    as (tr1 & rp & _ & _ & Hf1).
  rewrite Hloop in Hf1. cbn [final fin start] in Hf1.
  unfold Call. cbn [fin start]. rewrite Hloop. cbn [bind].
  unfold trFinish, trFinishChat. rewrite Hf1.
  cbn [Flags originalCtx set_RecoveredPanics].
  destruct Hnil as [[Ha Hs]|(Ha & Hb & Hc)].
  - now rewrite Ha, Hs.
  - now rewrite Ha, Hb, Hc.
Qed.

(** X11.  The switch of [invoke] tests [sentMsg] first: an engine whose
    message is not nil calls every callback with the message, also when
    [sentErr] is populated as well; the error is then passed to none. *)
Theorem message_takes_precedence (f : Finisher) (w : World) :
  sentMsg f <> nil_ptr ->
  Forall (fun ev => exists cb r,
              ev = EvCallbackMsg cb (passCallbacksCtx f) (sentMsg f) r)
         (filter isCallback (trace (final (Call (start f w))))).
Proof.
  intros Hm.
  destruct (Call_callback_events (start f w)) as (tr1 & tr2 & Ht & Hfil & H1 & _).
  rewrite Ht. cbn [trace start app]. rewrite Hfil.
  eapply Forall_impl; [|exact H1]. cbn [fin start].
  intros ev (cb & [(_ & r & ->)|(Hn & _)]); [eauto|contradiction].
Qed.

(** X12.  Without the panic guard a run that returns is a run in which no
    callback panicked: [RecoveredPanics] is as before and, unless no outcome
    is marked, every callback of the list has been called, in list order. *)
Theorem unguarded_return (f : Finisher) (w : World) (s' : Machine) :
  TestFlag (Flags f) CEnablePanicGuard = false ->
  Call (start f w) = Done s' ->
  panicValues (trace s') = [] /\
  RecoveredPanics (fin s') = RecoveredPanics f /\
  (unmarked f \/
   Forall2 (callbackEventOf f) (callbacks f) (filter isCallback (trace s'))).
Proof.
  intros Hg Hcall. unfold Call in Hcall. cbn [fin start] in Hcall.
  destruct (rangeCallbacks (callbacks f) (start f w)) as [s1|v s1] eqn:Hloop;
    [|discriminate].
  cbn [bind] in Hcall.
  destruct (trFinish_inv s1) as (tr2 & Ht2 & Hall2 & _ & Hrp).
  rewrite Hcall in Ht2, Hrp. cbn [final] in Ht2, Hrp.
  destruct (unmarked_dec f) as [U|U].
  - rewrite (rangeCallbacks_unmarked (callbacks f) (start f w) U) in Hloop.
    injection Hloop as <-. cbn [trace fin start app] in Ht2, Hrp, Hall2.
    rewrite Ht2, Hrp. split; [eapply panicValues_cleanup, Hall2|]. auto.
  - destruct (rangeCallbacks_unguarded (callbacks f) (start f w) s1 Hg U Hloop)
      as (Hf1 & tr & Ht & Hall & Hpv).
    cbn [fin trace start app] in Hf1, Ht, Hall.
    rewrite Hf1 in Hall2, Hrp. rewrite Ht2, Ht, Hrp.
    split; [|split; [reflexivity|right]].
    + now rewrite panicValues_app, Hpv, (panicValues_cleanup _ _ Hall2).
    + rewrite filter_app, (filter_isCallback_cleanup _ _ Hall2), app_nil_r.
      now rewrite (filter_isCallback_callbacks f tr
                     (Forall2_callbackEventOf_Forall _ _ _ Hall)).
Qed.

(** X13.  [Call] keeps no record of having run.  Under the panic guard, with
    an outcome marked, calling it again on the engine and the world the first
    run left calls every callback of the list once more, in list order. *)
Theorem second_Call_calls_again (f : Finisher) (w : World) :
  TestFlag (Flags f) CEnablePanicGuard = true ->
  sentMsg f <> nil_ptr \/ sentErr f <> None ->
  Forall2 (callbackEventOf f) (callbacks f)
          (filter isCallback
             (trace (final (Call (start (fin (final (Call (start f w))))
                                        (world (final (Call (start f w))))))))).
Proof.
  intros Hg Hmarked.
  destruct (Call_inv (start f w)) as (tra & trb & _ & _ & _ & Hw).
  destruct (Call_shape f w) as (tr1 & tr2 & rp & _ & _ & _ & _ & _ & _ & Heff).
  cbn [fin start] in Hw.
  set (s1 := final (Call (start f w))) in *.
  assert (Hg1 : TestFlag (Flags (fin s1)) CEnablePanicGuard = true).
  { destruct Heff as [->|[(e & _ & _ & ->)|(e & tr0 & _ & _ & ->)]];
      cbn [Flags Err recordFailure set_Flags set_Err set_RecoveredPanics];
      [assumption|now apply TestFlag_SetFlag_mono..]. }
  assert (U1 : ~ unmarked (fin (start (fin s1) (world s1)))).
  { intros [Hm He]. cbn [fin start] in Hm, He.
    destruct Hw as (Hm' & He' & _). rewrite Hm' in Hm. rewrite He' in He. tauto. }
  destruct (rangeCallbacks_guarded (callbacks (fin s1)) (start (fin s1) (world s1))
                                   Hg1 U1)
    as (s2 & tr & Hloop & Ht & Hall & _).
  cbn [fin trace start app] in Ht, Hall.
  rewrite (callbackEventOf_sameWiring f (fin s1) Hw) in Hall.
  assert (Hcbs : callbacks (fin s1) = callbacks f) by apply Hw.
  rewrite Hcbs in Hall.
  unfold Call at 1. cbn [fin start]. rewrite Hloop. cbn [bind].
  destruct (trFinish_inv s2) as (tr' & -> & Hall2 & _).
  rewrite Ht, filter_app, (filter_isCallback_cleanup _ _ Hall2), app_nil_r.
  now rewrite (filter_isCallback_callbacks f tr
                 (Forall2_callbackEventOf_Forall _ _ _ Hall)).
Qed.

(** X14.  A completor is called only on request: when
    [CFinishSessionTransaction] is not set the run calls the session
    completor not once, and when [CFinishChatTransaction] is not set it calls
    the chat completor not once. *)
Theorem completors_called_on_request_only (f : Finisher) (w : World) :
  (TestFlag (Flags f) CFinishSessionTransaction = false ->
   filter isSession (trace (final (Call (start f w)))) = []) /\
  (TestFlag (Flags f) CFinishChatTransaction = false ->
   filter isChat (trace (final (Call (start f w)))) = []).
Proof.
  destruct (Call_shape f w) as (tr1 & tr2 & rp & Ht & H1 & _ & Hs & Hc & _).
  destruct (no_cleanup_among_callbacks _ _ H1) as [Hs1 Hc1].
  rewrite Ht, !filter_app, Hs1, Hc1. simpl. auto.
Qed.

End Properties.

(** ** The claims on the concrete system *)

(** The spec's first scenario: three callbacks, the second panics with
    ["boom"] under the panic guard, the session transaction is requested and
    succeeds. *)
Example scenario_three_callbacks :
  Demo.run Demo.bothSucceed Demo.threeCallbacks
  = Done (mkMachine
            (mkFinisher 3 10 20 7 None [101; 102; 104] [Some "boom"] None)
            4
            [EvCallbackMsg 101 20 7 (Returns tt);
             EvCallbackMsg 102 20 7 (Panics (Some "boom"));
             EvCallbackMsg 104 20 7 (Returns tt);
             EvSessionTransaction 10 (Returns None)]) /\
  TrSessionError (fin (final (Demo.run Demo.bothSucceed Demo.threeCallbacks)))
  = None /\
  TrChatError (fin (final (Demo.run Demo.bothSucceed Demo.threeCallbacks)))
  = None.
Proof. repeat split. Qed.

(** The list handed to [MakeFinisher] is lost: a run of the engine it
    returns calls nothing, where an engine that holds the same list calls
    both callbacks. *)
Example scenario_constructor :
  trace (final (Demo.run noCompletors
                  (MakeSuccess (MakeFinisher CEnablePanicGuard [101; 104] 10 20) 7)))
  = [] /\
  trace (final (Demo.run noCompletors
                  (mkFinisher CEnablePanicGuard 10 20 7 None [101; 104] [] None)))
  = [EvCallbackMsg 101 20 7 (Returns tt); EvCallbackMsg 104 20 7 (Returns tt)].
Proof. split; reflexivity. Qed.

(** The spec's scenario for C2: no callback, both transactions requested,
    the session completor returns ["E1"]. *)
Lemma session_failure_stops_cleanup_witness :
  TestFlag (Flags Demo.bothStages) CFinishSessionTransaction = true /\
  TestFlag (Flags Demo.bothStages) CIsChatTransactionError = false /\
  exists s',
    Demo.run Demo.sessionFails Demo.bothStages = Done s' /\
    filter isChat (trace s') = [] /\
    TestFlag (Flags (fin s')) CIsSessionTransactionError = true /\
    TrSessionError (fin s') = Some "E1" /\
    TrChatError (fin s') = None.
Proof.
  split; [reflexivity|]. split; [reflexivity|].
  edestruct (session_failure_stops_cleanup
               Demo.callMsg Demo.callErr Demo.sessionFails Demo.bothStages 0)
    as (s' & Hcall & Hchat & Hflag & Hsess & Hother);
    [reflexivity|reflexivity|reflexivity|].
  exists s'. split; [exact Hcall|]. split; [exact Hchat|].
  split; [exact Hflag|]. split; [exact Hsess|exact (Hother eq_refl)].
Defined.

(** C2 as stated fails: an engine constructed with
    [CIsChatTransactionError] among its flags, whose session completor
    returns ["E1"], answers ["E1"] from [TrChatError] too. *)
Lemma stale_chat_flag_counterexample :
  TestFlag (Flags Demo.staleChatFlag) CFinishSessionTransaction = true /\
  trace (final (Demo.run Demo.sessionFails Demo.staleChatFlag))
  = [EvSessionTransaction 10 (Returns (Some "E1"))] /\
  TrSessionError (fin (final (Demo.run Demo.sessionFails Demo.staleChatFlag)))
  = Some "E1" /\
  TrChatError (fin (final (Demo.run Demo.sessionFails Demo.staleChatFlag)))
  = Some "E1" /\
  TrChatError (fin (final (Demo.run Demo.sessionFails Demo.staleChatFlag)))
  <> None.
Proof. repeat split. discriminate. Qed.

(** C3 where the session completor returns no error and the chat completor
    returns ["E2"]. *)
Lemma chat_failure_recorded_witness :
  TestFlag (Flags Demo.bothStages) CFinishChatTransaction = true /\
  TestFlag (Flags Demo.bothStages) CIsSessionTransactionError = false /\
  exists s',
    Demo.run Demo.chatFails Demo.bothStages = Done s' /\
    TestFlag (Flags (fin s')) CIsChatTransactionError = true /\
    TrChatError (fin s') = Some "E2" /\
    TrSessionError (fin s') = None.
Proof.
  split; [reflexivity|]. split; [reflexivity|].
  edestruct (chat_failure_recorded
               Demo.callMsg Demo.callErr Demo.chatFails Demo.bothStages 0)
    as (s' & Hcall & Hflag & Hchat & Hother);
    [reflexivity|reflexivity|right; split; reflexivity|reflexivity|].
  exists s'. split; [exact Hcall|]. split; [exact Hflag|].
  split; [exact Hchat|exact (Hother eq_refl)].
Defined.

(** C3 as stated fails: an engine constructed with
    [CIsSessionTransactionError] among its flags, whose chat completor
    returns ["E2"], answers ["E2"] from [TrSessionError] too. *)
Lemma stale_session_flag_counterexample :
  TestFlag (Flags Demo.staleSessionFlag) CFinishSessionTransaction = false /\
  TestFlag (Flags Demo.staleSessionFlag) CFinishChatTransaction = true /\
  trace (final (Demo.run Demo.chatFails Demo.staleSessionFlag))
  = [EvChatTransaction 10 (Returns (Some "E2"))] /\
  TrChatError (fin (final (Demo.run Demo.chatFails Demo.staleSessionFlag)))
  = Some "E2" /\
  TrSessionError (fin (final (Demo.run Demo.chatFails Demo.staleSessionFlag)))
  = Some "E2" /\
  TrSessionError (fin (final (Demo.run Demo.chatFails Demo.staleSessionFlag)))
  <> None.
Proof. repeat split. discriminate. Qed.

(** The spec's first scenario once more: three callbacks, the second panics
    with ["boom"], under the panic guard. *)
Lemma panic_guard_contains_panics_witness :
  TestFlag (Flags Demo.threeCallbacks) CEnablePanicGuard = true /\
  (sentMsg Demo.threeCallbacks <> nil_ptr \/ sentErr Demo.threeCallbacks <> None) /\
  exists s1,
    rangeCallbacks Demo.callMsg Demo.callErr
                   (callbacks Demo.threeCallbacks) (start Demo.threeCallbacks 0)
    = Done s1 /\
    Forall2 (callbackEventOf Demo.threeCallbacks)
            (callbacks Demo.threeCallbacks) (trace s1) /\
    RecoveredPanics (fin s1)
    = RecoveredPanics Demo.threeCallbacks
      ++ filter nonNil (panicValues (trace s1)) /\
    Demo.run Demo.bothSucceed Demo.threeCallbacks
    = trFinish Demo.bothSucceed s1 /\
    filter isCallback
           (trace (final (Demo.run Demo.bothSucceed Demo.threeCallbacks)))
    = trace s1 /\
    RecoveredPanics (fin (final (Demo.run Demo.bothSucceed Demo.threeCallbacks)))
    = RecoveredPanics Demo.threeCallbacks
      ++ filter nonNil (panicValues (trace s1)).
Proof.
  assert (H : sentMsg Demo.threeCallbacks <> nil_ptr
              \/ sentErr Demo.threeCallbacks <> None)
    by (left; discriminate).
  split; [reflexivity|]. split; [exact H|].
  exact (panic_guard_contains_panics
           Demo.callMsg Demo.callErr Demo.bothSucceed Demo.threeCallbacks 0
           eq_refl H).
Defined.

(** C4 (the code departs from it).  Under the panic guard a callback that
    panics with a nil value is stopped and the run returns, but
    [protectFromPanic] sees [recover()] report nil and stores nothing:
    [RecoveredPanics] is empty after a run in which one callback panicked,
    where the claim, and the comment of [Finisher], promise one entry. *)
Theorem nil_panic_leaves_no_entry :
  TestFlag (Flags Demo.nilPanic) CEnablePanicGuard = true /\
  callbacks Demo.nilPanic = [103] /\
  Demo.run noCompletors Demo.nilPanic
  = Done (mkMachine Demo.nilPanic 1 [EvCallbackMsg 103 20 7 (Panics None)]) /\
  panicValues (trace (final (Demo.run noCompletors Demo.nilPanic))) = [None] /\
  RecoveredPanics (fin (final (Demo.run noCompletors Demo.nilPanic))) = [].
Proof. repeat split. Qed.

(** C5 on three callbacks the second of which panics with ["boom"]: the
    third is not called and no transaction is finished. *)
Lemma unguarded_panic_aborts_witness :
  TestFlag (Flags Demo.unguarded) CEnablePanicGuard = false /\
  callbacks Demo.unguarded = [101] ++ 102 :: [104] /\
  exists s2,
    Demo.run Demo.bothSucceed Demo.unguarded = Panic (Some "boom") s2 /\
    Forall2 (callbackEventOf Demo.unguarded) ([101] ++ [102]) (trace s2) /\
    filter isSession (trace s2) = [] /\
    filter isChat (trace s2) = [] /\
    fin s2 = Demo.unguarded.
Proof.
  split; [reflexivity|]. split; [reflexivity|]. eexists.
  eapply (unguarded_panic_aborts
            Demo.callMsg Demo.callErr Demo.bothSucceed Demo.unguarded 0
            [101] [104] 102);
    reflexivity.
Defined.

(** C7 as stated fails: marking a failure with a nil error after a success,
    or a success with a nil message after a failure, leaves neither outcome
    field populated. *)
Lemma nil_outcome_counterexample :
  populated (MakeError (MakeSuccess (MakeFinisher 0 [] 10 20) 7) None) = 0%nat /\
  populated (MakeSuccess (MakeError (MakeFinisher 0 [] 10 20) (Some "E")) nil_ptr)
  = 0%nat /\
  populated (MakeError (MakeSuccess (MakeFinisher 0 [] 10 20) 7) None) <> 1%nat.
Proof. repeat split. discriminate. Qed.


(** C9 on an engine with two callbacks and no outcome, whose session
    completor returns no error and whose chat completor returns ["E2"]: no
    callback is called, both completors are, and the chat completor's own
    result is what the run logs. *)
Lemma Call_unmarked_witness :
  sentMsg Demo.noOutcome = nil_ptr /\
  sentErr Demo.noOutcome = None /\
  Demo.run Demo.chatFails Demo.noOutcome
  = trFinish Demo.chatFails (start Demo.noOutcome 0) /\
  filter isCallback (trace (final (Demo.run Demo.chatFails Demo.noOutcome)))
  = [] /\
  trace (final (Demo.run Demo.chatFails Demo.noOutcome))
  = [EvSessionTransaction 10 (Returns None);
     EvChatTransaction 10 (Returns (Some "E2"))] /\
  world (final (Demo.run Demo.chatFails Demo.noOutcome)) = 2.
Proof.
  split; [reflexivity|]. split; [reflexivity|].
  destruct (Call_unmarked Demo.callMsg Demo.callErr Demo.chatFails
                          Demo.noOutcome 0 eq_refl eq_refl)
    as (_ & Hcall & Hnone & _ & _ & Hboth).
  destruct (Hboth Demo.succeeds (Demo.fails "E2")
                  eq_refl eq_refl eq_refl eq_refl eq_refl) as [Htrace Hworld].
  split; [exact Hcall|]. split; [exact Hnone|].
  split; [exact Htrace|exact Hworld].
Defined.

(** ** The further properties on the concrete system *)

(** X3 where the chat completor fails: [TrSessionError] stays nil. *)
Lemma accessors_exclusive_witness :
  TestFlag (Flags Demo.bothStages) CIsSessionTransactionError = false /\
  TestFlag (Flags Demo.bothStages) CIsChatTransactionError = false /\
  (TrSessionError (fin (final (Demo.run Demo.chatFails Demo.bothStages))) = None \/
   TrChatError (fin (final (Demo.run Demo.chatFails Demo.bothStages))) = None).
Proof.
  split; [reflexivity|]. split; [reflexivity|].
  exact (accessors_exclusive Demo.callMsg Demo.callErr Demo.chatFails
                             Demo.bothStages 0 eq_refl eq_refl).
Defined.

(** X4 where only the chat transaction is requested, and fails. *)
Lemma TrSessionError_not_required_witness :
  TestFlag (Flags Demo.chatOnly) CFinishSessionTransaction = false /\
  TestFlag (Flags Demo.chatOnly) CIsSessionTransactionError = false /\
  TrSessionError (fin (final (Demo.run Demo.chatFails Demo.chatOnly))) = None.
Proof.
  split; [reflexivity|]. split; [reflexivity|].
  exact (TrSessionError_not_required Demo.callMsg Demo.callErr Demo.chatFails
                                     Demo.chatOnly 0 eq_refl eq_refl).
Defined.

(** X5 where only the session transaction is requested, and fails. *)
Lemma TrChatError_not_required_witness :
  TestFlag (Flags Demo.sessionOnly) CFinishChatTransaction = false /\
  TestFlag (Flags Demo.sessionOnly) CIsChatTransactionError = false /\
  TrChatError (fin (final (Demo.run Demo.sessionFails Demo.sessionOnly))) = None.
Proof.
  split; [reflexivity|]. split; [reflexivity|].
  exact (TrChatError_not_required Demo.callMsg Demo.callErr Demo.sessionFails
                                  Demo.sessionOnly 0 eq_refl eq_refl).
Defined.

(** X7: the panic guard is still set after a run whose session completor
    fails. *)
Lemma Call_keeps_flags_witness :
  TestFlag (Flags Demo.threeCallbacks) CEnablePanicGuard = true /\
  TestFlag (Flags (fin (final (Demo.run Demo.sessionFails Demo.threeCallbacks))))
           CEnablePanicGuard = true.
Proof.
  split; [reflexivity|].
  exact (Call_keeps_flags Demo.callMsg Demo.callErr Demo.sessionFails
                          Demo.threeCallbacks 0 CEnablePanicGuard eq_refl).
Defined.

(** X8 without the panic guard: nothing is appended. *)
Lemma RecoveredPanics_grows_witness :
  TestFlag (Flags Demo.unguarded) CEnablePanicGuard = false /\
  RecoveredPanics (fin (final (Demo.run Demo.bothSucceed Demo.unguarded)))
  = RecoveredPanics Demo.unguarded.
Proof.
  split; [reflexivity|].
  destruct (RecoveredPanics_grows Demo.callMsg Demo.callErr Demo.bothSucceed
                                  Demo.unguarded 0) as (new & H & _ & Hg).
  rewrite (Hg eq_refl), app_nil_r in H. exact H.
Defined.

(** X9 under the panic guard: the panic of the session completor is not
    contained. *)
Lemma completor_panic_escapes_witness :
  TestFlag (Flags Demo.threeCallbacks) CEnablePanicGuard = true /\
  TestFlag (Flags Demo.threeCallbacks) CFinishSessionTransaction = true /\
  exists s2,
    Demo.run Demo.sessionCrashes Demo.threeCallbacks = Panic (Some "down") s2 /\
    filter isChat (trace s2) = [] /\
    RecoveredPanics (fin s2) = [Some "boom"] /\
    Flags (fin s2) = Flags Demo.threeCallbacks /\
    Err (fin s2) = Err Demo.threeCallbacks.
Proof.
  split; [reflexivity|]. split; [reflexivity|]. eexists.
  edestruct (completor_panic_escapes
               Demo.callMsg Demo.callErr Demo.sessionCrashes Demo.threeCallbacks 0)
    as (Hcall & Hchat & Hfin & Hflags & Herr);
    [reflexivity|reflexivity|reflexivity|].
  split; [exact Hcall|]. split; [exact Hchat|]. split; [now rewrite Hfin|].
  split; [exact Hflags|exact Herr].
Defined.

(** X10: both transactions requested before [InitCompletors]. *)
Lemma unregistered_completor_panics_witness :
  TestFlag (Flags Demo.bothStages) CFinishSessionTransaction = true /\
  Demo.run noCompletors Demo.bothStages
  = Panic (Some nilFuncCall) (start Demo.bothStages 0).
Proof.
  split; [reflexivity|].
  apply (unregistered_completor_panics
           Demo.callMsg Demo.callErr noCompletors Demo.bothStages 0);
    [reflexivity|].
  left. split; reflexivity.
Defined.

(** X11 on an engine with both outcome fields populated. *)
Lemma message_takes_precedence_witness :
  sentMsg Demo.bothOutcomes <> nil_ptr /\
  sentErr Demo.bothOutcomes <> None /\
  Forall (fun ev => exists cb r,
              ev = EvCallbackMsg cb (passCallbacksCtx Demo.bothOutcomes)
                                 (sentMsg Demo.bothOutcomes) r)
         (filter isCallback
                 (trace (final (Demo.run noCompletors Demo.bothOutcomes)))).
Proof.
  assert (H : sentMsg Demo.bothOutcomes <> nil_ptr) by discriminate.
  split; [exact H|]. split; [discriminate|].
  exact (message_takes_precedence Demo.callMsg Demo.callErr noCompletors
                                  Demo.bothOutcomes 0 H).
Defined.

(** X12 on three callbacks that all return. *)
Lemma unguarded_return_witness :
  TestFlag (Flags Demo.quiet) CEnablePanicGuard = false /\
  exists s',
    Demo.run Demo.bothSucceed Demo.quiet = Done s' /\
    panicValues (trace s') = [] /\
    RecoveredPanics (fin s') = RecoveredPanics Demo.quiet /\
    (unmarked Demo.quiet \/
     Forall2 (callbackEventOf Demo.quiet) (callbacks Demo.quiet)
             (filter isCallback (trace s'))).
Proof.
  split; [reflexivity|]. eexists. split; [reflexivity|].
  eapply (unguarded_return Demo.callMsg Demo.callErr Demo.bothSucceed
                           Demo.quiet 0); reflexivity.
Defined.

(** X13 on the three callbacks of the first scenario. *)
Lemma second_Call_calls_again_witness :
  TestFlag (Flags Demo.threeCallbacks) CEnablePanicGuard = true /\
  (sentMsg Demo.threeCallbacks <> nil_ptr \/ sentErr Demo.threeCallbacks <> None) /\
  Forall2 (callbackEventOf Demo.threeCallbacks) (callbacks Demo.threeCallbacks)
          (filter isCallback
             (trace (final
                (Call Demo.callMsg Demo.callErr Demo.bothSucceed
                   (start (fin (final (Demo.run Demo.bothSucceed Demo.threeCallbacks)))
                          (world (final (Demo.run Demo.bothSucceed
                                                  Demo.threeCallbacks)))))))).
Proof.
  assert (H : sentMsg Demo.threeCallbacks <> nil_ptr
              \/ sentErr Demo.threeCallbacks <> None)
    by (left; discriminate).
  split; [reflexivity|]. split; [exact H|].
  exact (second_Call_calls_again Demo.callMsg Demo.callErr Demo.bothSucceed
                                 Demo.threeCallbacks 0 eq_refl H).
Defined.

(** X14 on an engine that requests no transaction. *)
Lemma completors_called_on_request_only_witness :
  TestFlag (Flags Demo.nilPanic) CFinishSessionTransaction = false /\
  TestFlag (Flags Demo.nilPanic) CFinishChatTransaction = false /\
  filter isSession (trace (final (Demo.run Demo.bothSucceed Demo.nilPanic))) = [] /\
  filter isChat (trace (final (Demo.run Demo.bothSucceed Demo.nilPanic))) = [].
Proof.
  split; [reflexivity|]. split; [reflexivity|].
  destruct (completors_called_on_request_only
              Demo.callMsg Demo.callErr Demo.bothSucceed Demo.nilPanic 0)
    as [Hs Hc].
  split; [exact (Hs eq_refl)|exact (Hc eq_refl)].
Defined.
